(** * Invorto Python client: request/response mapping layer

    A shallow embedding of [sdk/python/src/invorto/client.py].

    A phone number, whose characters the code sorts into classes, is the
    list of its code points.  The other Python [str] values are passed on
    as they are and are modelled by [string].  Python [dict] values are
    association lists kept in insertion order with at most one binding per
    key.  Methods that talk to the remote service are functions in a
    state-and-exception monad over a [World] that records every request
    handed to the session and holds the behaviour of what lies behind
    it. *)

From Stdlib Require Import String Ascii List ZArith NArith Bool Lia PeanoNat.
From Stdlib Require Import Floats.SpecFloat.
Import ListNotations.
Local Open Scope list_scope.
Local Open Scope string_scope.
Local Open Scope nat_scope.

Set Implicit Arguments.
Set Warnings "-register-all".

(* ===================================================================== *)
(** * Python strings *)
(* ===================================================================== *)

Module PyStr.

(** [c in chars] for a set of characters given as a string. *)
Fixpoint mem (c : ascii) (chars : string) : bool :=
  match chars with
  | EmptyString => false
  | String d rest => Ascii.eqb c d || mem c rest
  end.

(** [s.startswith(p)] *)
Definition startswith (p s : string) : bool := String.prefix p s.

(** [s[1:]] *)
Definition drop1 (s : string) : string :=
  match s with
  | EmptyString => EmptyString
  | String _ rest => rest
  end.

(** [s.rstrip(chars)]: the longest prefix of [s] whose last character is
    not in [chars]. *)
Fixpoint rstrip (chars : string) (s : string) : string :=
  match s with
  | EmptyString => EmptyString
  | String c rest =>
      match rstrip chars rest with
      | EmptyString => if mem c chars then EmptyString else String c EmptyString
      | r => String c r
      end
  end.

(** [s.endswith(c)] for a single character. *)
Fixpoint ends_with (c : ascii) (s : string) : bool :=
  match s with
  | EmptyString => false
  | String d EmptyString => Ascii.eqb d c
  | String _ rest => ends_with c rest
  end.

(** [c * n] *)
Fixpoint repeat_char (c : ascii) (n : nat) : string :=
  match n with
  | O => EmptyString
  | S k => String c (repeat_char c k)
  end.

(** Truthiness of a string: [bool(s)]. *)
Definition truthy (s : string) : bool :=
  match s with
  | EmptyString => false
  | _ => true
  end.

End PyStr.

(* ===================================================================== *)
(** * Python strings in full *)
(* ===================================================================== *)

(** Where the characters of a [str] matter, a string is the list of its
    code points. *)

Module Unicode.

Definition code (c : ascii) : N := N_of_ascii c.

(** The string of a literal. *)
Definition of_string (s : string) : list N :=
  map code (list_ascii_of_string s).

(** The code points for which [str.isspace] holds. *)
Definition whitespace : list N :=
  [ 9; 10; 11; 12; 13; 28; 29; 30; 31; 32; 133; 160; 5760; 8192; 8193;
    8194; 8195; 8196; 8197; 8198; 8199; 8200; 8201; 8202; 8232; 8233;
    8239; 8287; 12288 ]%N.

(** The ranges of the decimal digits of all scripts (Unicode 14.0, the
    tables of Python 3.11). *)
Definition decimal_digits : list (N * N) :=
  [ (48, 57); (1632, 1641); (1776, 1785); (1984, 1993); (2406, 2415);
    (2534, 2543); (2662, 2671); (2790, 2799); (2918, 2927);
    (3046, 3055); (3174, 3183); (3302, 3311); (3430, 3439);
    (3558, 3567); (3664, 3673); (3792, 3801); (3872, 3881);
    (4160, 4169); (4240, 4249); (6112, 6121); (6160, 6169);
    (6470, 6479); (6608, 6617); (6784, 6793); (6800, 6809);
    (6992, 7001); (7088, 7097); (7232, 7241); (7248, 7257);
    (42528, 42537); (43216, 43225); (43264, 43273); (43472, 43481);
    (43504, 43513); (43600, 43609); (44016, 44025); (65296, 65305);
    (66720, 66729); (68912, 68921); (69734, 69743); (69872, 69881);
    (69942, 69951); (70096, 70105); (70384, 70393); (70736, 70745);
    (70864, 70873); (71248, 71257); (71360, 71369); (71472, 71481);
    (71904, 71913); (72016, 72025); (72784, 72793); (73040, 73049);
    (73120, 73129); (92768, 92777); (92864, 92873); (93008, 93017);
    (120782, 120831); (123200, 123209); (123632, 123641);
    (125264, 125273); (130032, 130041) ]%N.

Definition in_ranges (c : N) (ranges : list (N * N)) : bool :=
  existsb (fun r => (fst r <=? c)%N && (c <=? snd r)%N) ranges.

(** [s.startswith(p)] *)
Fixpoint startswith (p s : list N) : bool :=
  match p with
  | [] => true
  | a :: p' =>
      match s with
      | [] => false
      | b :: s' => (a =? b)%N && startswith p' s'
      end
  end.

(** [s[1:]] *)
Definition drop1 (s : list N) : list N := tl s.

End Unicode.

Abbreviation ustr := (list N).

Definition u : string -> ustr := Unicode.of_string.

(* ===================================================================== *)
(** * The fragment of [re] the client uses *)
(* ===================================================================== *)

Module Re.

Definition charclass := N -> bool.

(** [\s]: every Unicode whitespace character. *)
Definition cls_space : charclass := fun c =>
  existsb (N.eqb c) Unicode.whitespace.

(** [\d]: every Unicode decimal digit. *)
Definition cls_digit : charclass := fun c =>
  Unicode.in_ranges c Unicode.decimal_digits.

(** [a-b] inside a bracket expression. *)
Definition cls_range (a b : ascii) : charclass := fun c =>
  ((Unicode.code a <=? c) && (c <=? Unicode.code b))%N.

Definition cls_char (a : ascii) : charclass := fun c =>
  (c =? Unicode.code a)%N.

Definition cls_union (p q : charclass) : charclass := fun c => p c || q c.

(** A pattern is a sequence of nodes: the anchors and a character class
    under a bounded quantifier ([x] is [{1,1}], [x?] is [{0,1}]). *)
Inductive node : Type :=
| Caret
| Dollar
| Rep (cls : charclass) (lo hi : nat).

Definition pattern := list node.

(** Consume exactly [n] characters of the class, then continue. *)
Fixpoint take_exact (cls : charclass) (n : nat) (pos : nat) (s : ustr)
         (k : nat -> ustr -> bool) : bool :=
  match n with
  | O => k pos s
  | S n' =>
      match s with
      | c :: rest => cls c && take_exact cls n' (S pos) rest k
      | [] => false
      end
  end.

(** Consume up to [n] characters of the class, longest first,
    backtracking into the continuation. *)
Fixpoint take_upto (cls : charclass) (n : nat) (pos : nat) (s : ustr)
         (k : nat -> ustr -> bool) : bool :=
  match n with
  | O => k pos s
  | S n' =>
      match s with
      | c :: rest =>
          (cls c && take_upto cls n' (S pos) rest k) || k pos s
      | [] => k pos s
      end
  end.

(** [$] without MULTILINE: the end of the string, or just before a
    newline that is the last character. *)
Definition at_end (s : ustr) : bool :=
  match s with
  | [] => true
  | [c] => (c =? 10)%N
  | _ => false
  end.

Fixpoint match_here (p : pattern) (pos : nat) (s : ustr) : bool :=
  match p with
  | [] => true
  | Caret :: p' => (pos =? 0) && match_here p' pos s
  | Dollar :: p' => at_end s && match_here p' pos s
  | Rep cls lo hi :: p' =>
      take_exact cls lo pos s (fun pos1 s1 =>
        take_upto cls (hi - lo) pos1 s1 (fun pos2 s2 =>
          match_here p' pos2 s2))
  end.

(** [bool(re.match(p, s))] *)
Definition re_match (p : pattern) (s : ustr) : bool := match_here p 0 s.

(** [re.sub(cls, repl, s)] for a pattern that is one character class. *)
Fixpoint sub_class (cls : charclass) (repl : ustr) (s : ustr) : ustr :=
  match s with
  | [] => []
  | c :: rest =>
      if cls c then (repl ++ sub_class cls repl rest)%list
      else c :: sub_class cls repl rest
  end.

End Re.

(* ===================================================================== *)
(** * Phone-number utilities *)
(* ===================================================================== *)

(** [r'[\s\-\(\)]'] *)
Definition separator_class : Re.charclass :=
  Re.cls_union Re.cls_space
    (Re.cls_union (Re.cls_char "-")
       (Re.cls_union (Re.cls_char "(") (Re.cls_char ")"))).

(** [r'^[\+]?[1-9][\d]{0,15}$'] *)
Definition phone_regex : Re.pattern :=
  [ Re.Caret;
    Re.Rep (Re.cls_char "+") 0 1;
    Re.Rep (Re.cls_range "1" "9") 1 1;
    Re.Rep Re.cls_digit 0 15;
    Re.Dollar ].

Definition validate_phone_number (phone_number : ustr) : bool :=
  let cleaned := Re.sub_class separator_class [] phone_number in
  Re.re_match phone_regex cleaned.

Definition format_phone_number (phone_number : ustr) (country_code : ustr)
  : ustr :=
  let cleaned := Re.sub_class separator_class [] phone_number in
  if Unicode.startswith (u "+") cleaned then cleaned
  else if Unicode.startswith (u "0") cleaned
       then (country_code ++ Unicode.drop1 cleaned)%list
  else if Unicode.startswith (u "91") cleaned && (length cleaned =? 12)
       then (u "+" ++ cleaned)%list
  else if length cleaned =? 10 then (country_code ++ cleaned)%list
  else phone_number.

(** The default of the [country_code] argument. *)
Definition default_country_code : ustr := u "+91".

(* ===================================================================== *)
(** * Python values and dictionaries *)
(* ===================================================================== *)

(** A Python [float]: an IEEE binary64 datum. *)
Definition float := spec_float.

(** The literal [0.7]. *)
Definition float_0_7 : float := S754_finite false 6305039478318694 (-53).

(** Values of type [Any] that reach the wire: what [json.loads] returns
    and what [json.dumps] accepts.  A [dict] is the list of its items in
    insertion order. *)
Inductive json : Type :=
| JNull
| JBool (b : bool)
| JInt (n : Z)
| JFloat (f : float)
| JStr (s : string)
| JList (l : list json)
| JDict (d : list (string * json)).

Abbreviation dict := (list (string * json)).

Module Dict.

(** [d.get(k)] *)
Fixpoint get (k : string) (d : dict) : option json :=
  match d with
  | [] => None
  | (k', v) :: rest => if String.eqb k k' then Some v else get k rest
  end.

(** [k in d] *)
Definition contains (k : string) (d : dict) : bool :=
  match get k d with
  | Some _ => true
  | None => false
  end.

(** [d[k] = v]: an existing key keeps its position. *)
Fixpoint set (k : string) (v : json) (d : dict) : dict :=
  match d with
  | [] => [(k, v)]
  | (k', v') :: rest =>
      if String.eqb k k' then (k', v) :: rest else (k', v') :: set k v rest
  end.

(** The dictionary left by [d.pop(k)]. *)
Fixpoint remove (k : string) (d : dict) : dict :=
  match d with
  | [] => []
  | (k', v') :: rest =>
      if String.eqb k k' then remove k rest else (k', v') :: remove k rest
  end.

(** [list(d.keys())] *)
Definition keys (d : dict) : list string := map fst d.

(** Truthiness of a dictionary: [bool(d)]. *)
Definition truthy (d : dict) : bool :=
  match d with
  | [] => false
  | _ => true
  end.

End Dict.

(* ===================================================================== *)
(** * Enumerations *)
(* ===================================================================== *)

Inductive Direction := INBOUND | OUTBOUND.

Definition Direction_value (d : Direction) : string :=
  match d with
  | INBOUND => "inbound"
  | OUTBOUND => "outbound"
  end.

Inductive CallStatus := CREATED | RINGING | ANSWERED | ACTIVE_CALL | COMPLETED | FAILED.

Definition CallStatus_value (s : CallStatus) : string :=
  match s with
  | CREATED => "created"
  | RINGING => "ringing"
  | ANSWERED => "answered"
  | ACTIVE_CALL => "active"
  | COMPLETED => "completed"
  | FAILED => "failed"
  end.

Inductive AgentStatus := ACTIVE | INACTIVE | DRAFT.

Definition AgentStatus_value (s : AgentStatus) : string :=
  match s with
  | ACTIVE => "active"
  | INACTIVE => "inactive"
  | DRAFT => "draft"
  end.

(* ===================================================================== *)
(** * Entity model: the pydantic classes *)
(* ===================================================================== *)

(** [None] is the absent value of an [Optional] field. *)

Module AgentConfig.
Record t := {
  name : string;
  prompt : string;
  voice : option string;
  locale : option string;
  temperature : option float;
  model : option string;
  max_tokens : option Z;
  system_prompt : option string;
  tools : option (list dict);
  metadata : option dict
}.
End AgentConfig.

Module CallOptions.
Record t := {
  agent_id : string;
  to : string;
  from_ : option string;
  direction : Direction;
  metadata : option dict;
  recording : option bool;
  transcription : option bool
}.
End CallOptions.

Module ListOptions.
Record t := {
  page : option Z;
  limit : option Z;
  search : option string;
  status : option string;
  sort_by : option string;
  sort_order : option string
}.

(** [ListOptions()] *)
Definition default : t :=
  {| page := Some 1%Z; limit := Some 50%Z; search := None; status := None;
     sort_by := None; sort_order := Some "desc" |}.
End ListOptions.

Module CallListOptions.
(** Inherits the fields of [ListOptions], then declares its own. *)
Record t := {
  page : option Z;
  limit : option Z;
  search : option string;
  status : option string;
  sort_by : option string;
  sort_order : option string;
  agent_id : option string;
  from_ : option string;
  to : option string
}.

(** [CallListOptions()] *)
Definition default : t :=
  {| page := Some 1%Z; limit := Some 50%Z; search := None; status := None;
     sort_by := None; sort_order := Some "desc";
     agent_id := None; from_ := None; to := None |}.
End CallListOptions.

Module PaginatedResponse.
Record t := {
  data : list json;
  pagination : dict
}.
End PaginatedResponse.

Module Agent.
Record t := {
  id : string;
  name : string;
  config : AgentConfig.t;
  status : AgentStatus;
  tenant_id : string;
  created_at : string;
  updated_at : string;
  stats : option dict
}.
End Agent.

Module Call.
Record t := {
  id : string;
  agent_id : string;
  direction : string;
  from_num : string;
  to_num : string;
  status : CallStatus;
  started_at : string;
  ended_at : option string;
  duration : option Z;
  cost_inr : option float;
  metadata : option dict;
  costs : option (list dict)
}.
End Call.

Module TimelineEvent.
Record t := {
  id : string;
  kind : string;
  payload : json;
  timestamp : string
}.
End TimelineEvent.

Module CallArtifacts.
Record t := {
  recording : option string;
  transcription : option string;
  summary : option string;
  metadata : option dict
}.
End CallArtifacts.

Module TenantUsage.
Record t := {
  tenant_id : string;
  period : string;
  calls : dict;
  agents : dict
}.
End TenantUsage.

Module CallAnalytics.
Record t := {
  call_id : string;
  total_events : Z;
  event_types : list (string * Z);
  duration : Z;
  sentiment : string;
  topics : list string
}.
End CallAnalytics.

(* ===================================================================== *)
(** * Request encoder: [model_dump(exclude_none=True)] *)
(* ===================================================================== *)

(** [model_dump] lists the fields under their declared names, in
    declaration order, with the value each one holds; [exclude_none]
    leaves out every field whose value is [None].  Values of type [Any]
    inside [metadata] and [tools] are kept as they are. *)

Definition dump_field {A : Type} (key : string) (enc : A -> json)
           (value : option A) : dict :=
  match value with
  | Some v => [(key, enc v)]
  | None => []
  end.

Definition JDicts (l : list dict) : json := JList (map JDict l).

Definition AgentConfig_model_dump (c : AgentConfig.t) : dict :=
  ([("name", JStr (AgentConfig.name c))]
   ++ [("prompt", JStr (AgentConfig.prompt c))]
   ++ dump_field "voice" JStr (AgentConfig.voice c)
   ++ dump_field "locale" JStr (AgentConfig.locale c)
   ++ dump_field "temperature" JFloat (AgentConfig.temperature c)
   ++ dump_field "model" JStr (AgentConfig.model c)
   ++ dump_field "max_tokens" JInt (AgentConfig.max_tokens c)
   ++ dump_field "system_prompt" JStr (AgentConfig.system_prompt c)
   ++ dump_field "tools" JDicts (AgentConfig.tools c)
   ++ dump_field "metadata" JDict (AgentConfig.metadata c))%list.

Definition CallOptions_model_dump (o : CallOptions.t) : dict :=
  ([("agent_id", JStr (CallOptions.agent_id o))]
   ++ [("to", JStr (CallOptions.to o))]
   ++ dump_field "from_" JStr (CallOptions.from_ o)
   ++ [("direction", JStr (Direction_value (CallOptions.direction o)))]
   ++ dump_field "metadata" JDict (CallOptions.metadata o)
   ++ dump_field "recording" JBool (CallOptions.recording o)
   ++ dump_field "transcription" JBool (CallOptions.transcription o))%list.

Definition ListOptions_model_dump (o : ListOptions.t) : dict :=
  (dump_field "page" JInt (ListOptions.page o)
   ++ dump_field "limit" JInt (ListOptions.limit o)
   ++ dump_field "search" JStr (ListOptions.search o)
   ++ dump_field "status" JStr (ListOptions.status o)
   ++ dump_field "sort_by" JStr (ListOptions.sort_by o)
   ++ dump_field "sort_order" JStr (ListOptions.sort_order o))%list.

Definition CallListOptions_model_dump (o : CallListOptions.t) : dict :=
  (dump_field "page" JInt (CallListOptions.page o)
   ++ dump_field "limit" JInt (CallListOptions.limit o)
   ++ dump_field "search" JStr (CallListOptions.search o)
   ++ dump_field "status" JStr (CallListOptions.status o)
   ++ dump_field "sort_by" JStr (CallListOptions.sort_by o)
   ++ dump_field "sort_order" JStr (CallListOptions.sort_order o)
   ++ dump_field "agent_id" JStr (CallListOptions.agent_id o)
   ++ dump_field "from_" JStr (CallListOptions.from_ o)
   ++ dump_field "to" JStr (CallListOptions.to o))%list.

(* ===================================================================== *)
(** * Response decoder: pydantic validation *)
(* ===================================================================== *)

(** Validation either yields the value or the locations of all offending
    fields.  A field accepts a JSON value of the kind its annotation
    names.  A number field moreover accepts what pydantic converts to a
    number (an integer for a [float], a float without fractional part or
    a string of digits for an [int], ...): these conversions belong to the
    installed pydantic and are a parameter of the development.  Keys the
    class does not declare are ignored. *)

Module Validate.

(** One step of the path to an offending value. *)
Inductive loc_item : Type :=
| Key (k : string)
| Index (i : nat).

Definition loc := list loc_item.

Inductive res (A : Type) : Type :=
| Valid (a : A)
| Invalid (locs : list loc).
Arguments Valid {A} a.
Arguments Invalid {A} locs.

Definition validator (A : Type) := json -> res A.

(** Applying a constructor to one more validated field; the errors of
    both sides are kept. *)
Definition ap {A B : Type} (f : res (A -> B)) (x : res A) : res B :=
  match f, x with
  | Valid g, Valid a => Valid (g a)
  | Valid _, Invalid e => Invalid e
  | Invalid e, Valid _ => Invalid e
  | Invalid e1, Invalid e2 => Invalid (e1 ++ e2)%list
  end.

Definition at_loc {A : Type} (i : loc_item) (r : res A) : res A :=
  match r with
  | Valid a => Valid a
  | Invalid inner => Invalid (map (cons i) inner)
  end.

Definition here : list loc := [[]].

Definition str : validator string := fun v =>
  match v with JStr s => Valid s | _ => Invalid here end.

(** What pydantic makes of a value that is not of the kind of a number
    field: the number it converts the value to, if any. *)
Class conversions : Type := {
  to_int : json -> option Z;
  to_float : json -> option float
}.

Definition int {pydantic : conversions} : validator Z := fun v =>
  match v with
  | JInt n => Valid n
  | _ => match to_int v with
         | Some n => Valid n
         | None => Invalid here
         end
  end.

Definition float_ {pydantic : conversions} : validator float := fun v =>
  match v with
  | JFloat f => Valid f
  | _ => match to_float v with
         | Some f => Valid f
         | None => Invalid here
         end
  end.

Definition any : validator json := fun v => Valid v.

Definition dict_any : validator dict := fun v =>
  match v with JDict d => Valid d | _ => Invalid here end.

Fixpoint each {A : Type} (f : validator A) (i : nat) (l : list json)
  : res (list A) :=
  match l with
  | [] => Valid []
  | x :: rest =>
      ap (ap (Valid cons) (at_loc (Index i) (f x))) (each f (S i) rest)
  end.

Definition list_of {A : Type} (f : validator A) : validator (list A) :=
  fun v => match v with JList l => each f 0 l | _ => Invalid here end.

Fixpoint each_item {A : Type} (f : validator A) (d : dict)
  : res (list (string * A)) :=
  match d with
  | [] => Valid []
  | (k, x) :: rest =>
      ap (ap (Valid (fun a tl => (k, a) :: tl)) (at_loc (Key k) (f x)))
         (each_item f rest)
  end.

Definition dict_of {A : Type} (f : validator A)
  : validator (list (string * A)) :=
  fun v => match v with JDict d => each_item f d | _ => Invalid here end.

Definition enum {A : Type} (members : list A) (value : A -> string)
  : validator A := fun v =>
  match v with
  | JStr s =>
      match find (fun m => String.eqb (value m) s) members with
      | Some m => Valid m
      | None => Invalid here
      end
  | _ => Invalid here
  end.

(** A field without a default. *)
Definition required {A : Type} (key : string) (f : validator A) (d : dict)
  : res A :=
  match Dict.get key d with
  | Some v => at_loc (Key key) (f v)
  | None => Invalid [[Key key]]
  end.

(** An [Optional] field with a default. *)
Definition optional {A : Type} (key : string) (f : validator A)
           (default : option A) (d : dict) : res (option A) :=
  match Dict.get key d with
  | None => Valid default
  | Some JNull => Valid None
  | Some v => at_loc (Key key) (ap (Valid Some) (f v))
  end.

End Validate.

Notation "f <*> x" := (Validate.ap f x) (at level 61, left associativity).

Definition validate_AgentConfig {pydantic : Validate.conversions} (d : dict)
  : Validate.res AgentConfig.t :=
  Validate.Valid AgentConfig.Build_t
  <*> Validate.required "name" Validate.str d
  <*> Validate.required "prompt" Validate.str d
  <*> Validate.optional "voice" Validate.str None d
  <*> Validate.optional "locale" Validate.str (Some "en-IN") d
  <*> Validate.optional "temperature" Validate.float_ (Some float_0_7) d
  <*> Validate.optional "model" Validate.str (Some "gpt-4o-mini") d
  <*> Validate.optional "max_tokens" Validate.int (Some 1000%Z) d
  <*> Validate.optional "system_prompt" Validate.str None d
  <*> Validate.optional "tools" (Validate.list_of Validate.dict_any) None d
  <*> Validate.optional "metadata" Validate.dict_any None d.

(** A field annotated with a model class takes a mapping and validates
    it against that class. *)
Definition AgentConfig_validator {pydantic : Validate.conversions}
  : Validate.validator AgentConfig.t := fun v =>
  match v with
  | JDict d => validate_AgentConfig d
  | _ => Validate.Invalid Validate.here
  end.

Definition validate_Agent {pydantic : Validate.conversions} (d : dict)
  : Validate.res Agent.t :=
  Validate.Valid Agent.Build_t
  <*> Validate.required "id" Validate.str d
  <*> Validate.required "name" Validate.str d
  <*> Validate.required "config" AgentConfig_validator d
  <*> Validate.required "status"
        (Validate.enum [ACTIVE; INACTIVE; DRAFT] AgentStatus_value) d
  <*> Validate.required "tenant_id" Validate.str d
  <*> Validate.required "created_at" Validate.str d
  <*> Validate.required "updated_at" Validate.str d
  <*> Validate.optional "stats" Validate.dict_any None d.

Definition validate_Call {pydantic : Validate.conversions} (d : dict)
  : Validate.res Call.t :=
  Validate.Valid Call.Build_t
  <*> Validate.required "id" Validate.str d
  <*> Validate.required "agent_id" Validate.str d
  <*> Validate.required "direction" Validate.str d
  <*> Validate.required "from_num" Validate.str d
  <*> Validate.required "to_num" Validate.str d
  <*> Validate.required "status"
        (Validate.enum [CREATED; RINGING; ANSWERED; ACTIVE_CALL; COMPLETED; FAILED]
           CallStatus_value) d
  <*> Validate.required "started_at" Validate.str d
  <*> Validate.optional "ended_at" Validate.str None d
  <*> Validate.optional "duration" Validate.int None d
  <*> Validate.optional "cost_inr" Validate.float_ None d
  <*> Validate.optional "metadata" Validate.dict_any None d
  <*> Validate.optional "costs" (Validate.list_of Validate.dict_any) None d.

Definition validate_TimelineEvent (d : dict) : Validate.res TimelineEvent.t :=
  Validate.Valid TimelineEvent.Build_t
  <*> Validate.required "id" Validate.str d
  <*> Validate.required "kind" Validate.str d
  <*> Validate.required "payload" Validate.any d
  <*> Validate.required "timestamp" Validate.str d.

Definition validate_CallArtifacts (d : dict) : Validate.res CallArtifacts.t :=
  Validate.Valid CallArtifacts.Build_t
  <*> Validate.optional "recording" Validate.str None d
  <*> Validate.optional "transcription" Validate.str None d
  <*> Validate.optional "summary" Validate.str None d
  <*> Validate.optional "metadata" Validate.dict_any None d.

Definition validate_PaginatedResponse (d : dict)
  : Validate.res PaginatedResponse.t :=
  Validate.Valid PaginatedResponse.Build_t
  <*> Validate.required "data" (Validate.list_of Validate.any) d
  <*> Validate.required "pagination" Validate.dict_any d.

Definition validate_TenantUsage (d : dict) : Validate.res TenantUsage.t :=
  Validate.Valid TenantUsage.Build_t
  <*> Validate.required "tenant_id" Validate.str d
  <*> Validate.required "period" Validate.str d
  <*> Validate.required "calls" Validate.dict_any d
  <*> Validate.required "agents" Validate.dict_any d.

Definition validate_CallAnalytics {pydantic : Validate.conversions} (d : dict)
  : Validate.res CallAnalytics.t :=
  Validate.Valid CallAnalytics.Build_t
  <*> Validate.required "call_id" Validate.str d
  <*> Validate.required "total_events" Validate.int d
  <*> Validate.required "event_types" (Validate.dict_of Validate.int) d
  <*> Validate.required "duration" Validate.int d
  <*> Validate.required "sentiment" Validate.str d
  <*> Validate.required "topics" (Validate.list_of Validate.str) d.

(* ===================================================================== *)
(** * The remote service and the exceptions *)
(* ===================================================================== *)

Record Request := {
  method : string;
  url : string;
  headers : list (string * string);
  json_kw : option dict;      (* the [json=] keyword *)
  params_kw : option dict     (* the [params=] keyword *)
}.

(** What the client reads from a response: [status_code], [text], and the
    value of [json()], which is [None] when the body is not valid JSON. *)
Record Response := {
  status_code : Z;
  text : string;
  json_ : option json
}.

(** The other ways [requests] fails without a response in hand. *)
Inductive request_failure : Type :=
| Timeout
| TooManyRedirects
| MissingSchema
| InvalidURL
| InvalidJSONError.         (* a body that [json.dumps] refuses *)

(** How one call of [session.request] ends.  The response is the one the
    call returns, after any redirection the session follows on its own. *)
Inductive Outcome : Type :=
| Reply (r : Response)
| Unreachable               (* connection failure *)
| Failure (e : request_failure).

(** Everything behind [session.request]: the [requests] library, the
    network and the service.  It decides how each call ends knowing all
    the requests handed to the session so far, the last of them being the
    one at hand; [sent] lists those requests in order.  A request the
    library refuses before sending is listed too, and ends in [Failure]. *)
Record World := {
  remote : list Request -> Outcome;
  sent : list Request
}.

Inductive exn : Type :=
| ConnectionError
| RequestException (e : request_failure)
| HTTPError (status : Z) (response : Response)
| JSONDecodeError
| ValidationError (locs : list Validate.loc)
| TypeError
| AttributeError.

Inductive Result (A : Type) : Type :=
| Ok (a : A)
| Raise (e : exn).
Arguments Ok {A} a.
Arguments Raise {A} e.

(** Computations that may issue requests and may raise. *)
Definition M (A : Type) : Type := World -> Result A * World.

Definition ret {A : Type} (a : A) : M A := fun w => (Ok a, w).

Definition raise {A : Type} (e : exn) : M A := fun w => (Raise e, w).

Definition bind {A B : Type} (m : M A) (f : A -> M B) : M B := fun w =>
  match m w with
  | (Ok a, w') => f a w'
  | (Raise e, w') => (Raise e, w')
  end.

Notation "x <- m ;; k" := (bind m (fun x => k))
  (at level 62, m at next level, right associativity).

(** Constructing a model from the keywords of a mapping: a value that
    is not a mapping cannot be unpacked. *)
Definition construct {A : Type} (validate : dict -> Validate.res A)
           (data : json) : M A :=
  match data with
  | JDict d =>
      match validate d with
      | Validate.Valid a => ret a
      | Validate.Invalid locs => raise (ValidationError locs)
      end
  | _ => raise TypeError
  end.

(** [response.raise_for_status()] *)
Definition raise_for_status (response : Response) : M unit :=
  if ((400 <=? status_code response) && (status_code response <? 600))%Z
  then raise (HTTPError (status_code response) response)
  else ret tt.

(** [response.json()] *)
Definition response_json (response : Response) : M json :=
  match json_ response with
  | Some v => ret v
  | None => raise JSONDecodeError
  end.

(* ===================================================================== *)
(** * Synchronous facade: [InvortoClient] *)
(* ===================================================================== *)

Module InvortoClient.
Record t := {
  api_key : string;
  base_url : string;
  tenant_id : option string;
  session_headers : list (string * string)
}.
End InvortoClient.

Definition default_base_url : string := "https://api.invorto.ai".

(** [InvortoClient.__init__] *)
Definition InvortoClient_init (api_key base_url : string)
           (tenant_id : option string) : InvortoClient.t :=
  {| InvortoClient.api_key := api_key;
     InvortoClient.base_url := PyStr.rstrip "/" base_url;
     InvortoClient.tenant_id := tenant_id;
     InvortoClient.session_headers :=
       app [("Authorization", "Bearer " ++ api_key);
            ("Content-Type", "application/json")]
           match tenant_id with
           | Some t => if PyStr.truthy t then [("x-tenant-id", t)] else []
           | None => []
           end |}.

(** [self.session.request(method, url, **kwargs)] *)
Definition session_request (self : InvortoClient.t) (method url : string)
           (json_kw params_kw : option dict) : M Response := fun w =>
  let req := {| method := method; url := url;
                headers := InvortoClient.session_headers self;
                json_kw := json_kw; params_kw := params_kw |} in
  let issued := (sent w ++ [req])%list in
  let w' := {| remote := remote w; sent := issued |} in
  match remote w issued with
  | Reply r => (Ok r, w')
  | Unreachable => (Raise ConnectionError, w')
  | Failure e => (Raise (RequestException e), w')
  end.

Definition _make_request (self : InvortoClient.t) (method endpoint : string)
           (json_kw params_kw : option dict) : M json :=
  let url := InvortoClient.base_url self ++ endpoint in
  response <- session_request self method url json_kw params_kw ;;
  _ <- raise_for_status response ;;
  response_json response.

Definition create_agent {pydantic : Validate.conversions}
           (self : InvortoClient.t) (config : AgentConfig.t)
  : M Agent.t :=
  data <- _make_request self "POST" "/v1/agents"
            (Some (AgentConfig_model_dump config)) None ;;
  construct validate_Agent data.

Definition get_agent {pydantic : Validate.conversions}
           (self : InvortoClient.t) (agent_id : string) : M Agent.t :=
  data <- _make_request self "GET" ("/v1/agents/" ++ agent_id) None None ;;
  construct validate_Agent data.

Definition list_agents (self : InvortoClient.t) (options : option ListOptions.t)
  : M PaginatedResponse.t :=
  let options := match options with
                 | None => ListOptions.default
                 | Some o => o
                 end in
  let params := ListOptions_model_dump options in
  data <- _make_request self "GET" "/v1/agents" None (Some params) ;;
  construct validate_PaginatedResponse data.

Definition update_agent {pydantic : Validate.conversions}
           (self : InvortoClient.t) (agent_id : string)
           (updates : dict) : M Agent.t :=
  data <- _make_request self "PATCH" ("/v1/agents/" ++ agent_id)
            (Some updates) None ;;
  construct validate_Agent data.

Definition delete_agent (self : InvortoClient.t) (agent_id : string) : M json :=
  _make_request self "DELETE" ("/v1/agents/" ++ agent_id) None None.

(** The body [create_call] hands to the transport. *)
Definition create_call_data (options : CallOptions.t) : dict :=
  let call_data := CallOptions_model_dump options in
  match CallOptions.from_ options with
  | Some f => if PyStr.truthy f then Dict.set "from" (JStr f) call_data
              else call_data
  | None => call_data
  end.

Definition create_call (self : InvortoClient.t) (options : CallOptions.t)
  : M json :=
  _make_request self "POST" "/v1/calls" (Some (create_call_data options)) None.

Definition get_call {pydantic : Validate.conversions}
           (self : InvortoClient.t) (call_id : string) : M Call.t :=
  data <- _make_request self "GET" ("/v1/calls/" ++ call_id) None None ;;
  construct validate_Call data.

(** The query parameters [list_calls] hands to the transport. *)
Definition list_calls_params (options : option CallListOptions.t) : dict :=
  let options := match options with
                 | None => CallListOptions.default
                 | Some o => o
                 end in
  let params := CallListOptions_model_dump options in
  match Dict.get "from_" params with
  | Some v => Dict.set "from" v (Dict.remove "from_" params)
  | None => params
  end.

Definition list_calls (self : InvortoClient.t)
           (options : option CallListOptions.t) : M PaginatedResponse.t :=
  data <- _make_request self "GET" "/v1/calls" None
            (Some (list_calls_params options)) ;;
  construct validate_PaginatedResponse data.

Definition update_call_status {pydantic : Validate.conversions}
           (self : InvortoClient.t) (call_id status : string)
           (metadata : option dict) : M Call.t :=
  let update_data := [("status", JStr status)] in
  let update_data :=
    match metadata with
    | Some m => if Dict.truthy m then Dict.set "metadata" (JDict m) update_data
                else update_data
    | None => update_data
    end in
  data <- _make_request self "PATCH" ("/v1/calls/" ++ call_id ++ "/status")
            (Some update_data) None ;;
  construct validate_Call data.

(** The list comprehension that constructs one [TimelineEvent] per item. *)
Fixpoint construct_events (events : list json) : M (list TimelineEvent.t) :=
  match events with
  | [] => ret []
  | event :: rest =>
      e <- construct validate_TimelineEvent event ;;
      es <- construct_events rest ;;
      ret (e :: es)
  end.

(** The items a [for] loop draws from a value. *)
Definition iterate (v : json) : M (list json) :=
  match v with
  | JList l => ret l
  | JDict d => ret (map (fun kv => JStr (fst kv)) d)
  | JStr s => ret (map (fun c => JStr (String c EmptyString)) (list_ascii_of_string s))
  | _ => raise TypeError
  end.

(** The [return] statement of [get_call_timeline]: [data.get] needs a
    mapping. *)
Definition timeline_events (data : json) : M (list TimelineEvent.t) :=
  match data with
  | JDict d =>
      let timeline := match Dict.get "timeline" d with
                      | Some v => v
                      | None => JList []
                      end in
      events <- iterate timeline ;;
      construct_events events
  | _ => raise AttributeError
  end.

Definition get_call_timeline (self : InvortoClient.t) (call_id : string)
  : M (list TimelineEvent.t) :=
  data <- _make_request self "GET" ("/v1/calls/" ++ call_id ++ "/timeline")
            None None ;;
  timeline_events data.

Definition get_call_artifacts (self : InvortoClient.t) (call_id : string)
  : M CallArtifacts.t :=
  data <- _make_request self "GET" ("/v1/calls/" ++ call_id ++ "/artifacts")
            None None ;;
  construct validate_CallArtifacts data.

Definition default_period : string := "24h".

Definition get_tenant_usage (self : InvortoClient.t) (tenant_id period : string)
  : M TenantUsage.t :=
  data <- _make_request self "GET" ("/v1/tenants/" ++ tenant_id ++ "/usage")
            None (Some [("period", JStr period)]) ;;
  construct validate_TenantUsage data.

Definition get_call_analytics {pydantic : Validate.conversions}
           (self : InvortoClient.t) (call_id : string)
  : M CallAnalytics.t :=
  data <- _make_request self "GET" ("/v1/realtime/" ++ call_id ++ "/stats")
            None None ;;
  construct validate_CallAnalytics data.

Definition health_check (self : InvortoClient.t) : M json :=
  _make_request self "GET" "/health" None None.

Definition get_metrics (self : InvortoClient.t) : M string :=
  response <- session_request self "GET"
                (InvortoClient.base_url self ++ "/metrics") None None ;;
  _ <- raise_for_status response ;;
  ret (text response).

(** A [for] loop that appends the result of each call to a list. *)
Fixpoint for_append {A B : Type} (f : A -> M B) (items : list A)
         (acc : list B) : M (list B) :=
  match items with
  | [] => ret acc
  | x :: rest =>
      b <- f x ;;
      for_append f rest (acc ++ [b])%list
  end.

Definition create_multiple_agents {pydantic : Validate.conversions}
           (self : InvortoClient.t)
           (configs : list AgentConfig.t) : M (list Agent.t) :=
  for_append (create_agent self) configs [].

Definition create_multiple_calls (self : InvortoClient.t)
           (call_options : list CallOptions.t) : M (list json) :=
  for_append (create_call self) call_options [].

(** The public methods [InvortoClient] defines, in source order. *)
Definition InvortoClient_methods : list string :=
  [ "create_agent"; "get_agent"; "list_agents"; "update_agent"; "delete_agent";
    "create_call"; "get_call"; "list_calls"; "update_call_status";
    "get_call_timeline"; "get_call_artifacts";
    "get_tenant_usage"; "get_call_analytics";
    "validate_phone_number"; "format_phone_number";
    "health_check"; "get_metrics";
    "create_multiple_agents"; "create_multiple_calls";
    "close" ].

(** The facade operations: the public methods that map to a single call
    of the wire protocol. *)
Definition facade_operations : list string :=
  [ "create_agent"; "get_agent"; "list_agents"; "update_agent"; "delete_agent";
    "create_call"; "get_call"; "list_calls"; "update_call_status";
    "get_call_timeline"; "get_call_artifacts";
    "get_tenant_usage"; "get_call_analytics";
    "health_check"; "get_metrics" ].

(** The other public methods: the phone-number utilities, which reach no
    endpoint, the batch helpers, which reach one once per item, and the
    release of the session. *)
Definition other_methods : list string :=
  [ "validate_phone_number"; "format_phone_number";
    "create_multiple_agents"; "create_multiple_calls"; "close" ].

(* ===================================================================== *)
(** * Non-blocking adapter: [AsyncInvortoClient] *)
(* ===================================================================== *)

(** What a facade call can return; a future holds one of these. *)
Inductive value : Type :=
| VAgent (a : Agent.t)
| VCall (c : Call.t)
| VPage (p : PaginatedResponse.t)
| VEvents (l : list TimelineEvent.t)
| VArtifacts (a : CallArtifacts.t)
| VUsage (u : TenantUsage.t)
| VAnalytics (a : CallAnalytics.t)
| VJson (j : json)
| VText (s : string).

Definition returning {A : Type} (inj : A -> value) (m : M A) : M value :=
  a <- m ;; ret (inj a).

Module Loop.
(** The executor behind the event loop: the calls handed over and not
    yet run, and the futures already resolved. *)
Record t := {
  queue : list (nat * M value);
  resolved : list (nat * Result value);
  next_future : nat
}.

Definition empty : t := {| queue := []; resolved := []; next_future := 0 |}.

Fixpoint lookup (fut : nat) (l : list (nat * Result value))
  : option (Result value) :=
  match l with
  | [] => None
  | (f, r) :: rest => if Nat.eqb f fut then Some r else lookup fut rest
  end.

(** Every future in the executor was handed out by the loop: none
    carries an identifier the loop has yet to hand out. *)
Definition well_formed (l : t) : Prop :=
  (forall f call, In (f, call) (queue l) -> f < next_future l)
  /\ (forall f r, In (f, r) (resolved l) -> f < next_future l).

(** No call is waiting for a worker and no future carries an identifier
    the loop has yet to hand out. *)
Definition idle (l : t) : Prop :=
  queue l = [] /\ forall f r, In (f, r) (resolved l) -> f < next_future l.

(** The calls waiting under the identifier of a future. *)
Definition waiting (fut : nat) (q : list (nat * M value))
  : list (nat * M value) :=
  filter (fun entry => Nat.eqb (fst entry) fut) q.
End Loop.

Definition AsyncState : Type := World * Loop.t.

(** [loop.run_in_executor(None, call)]: hands the call over and returns
    its future. *)
Definition run_in_executor (call : M value) (st : AsyncState)
  : nat * AsyncState :=
  let (w, l) := st in
  let fut := Loop.next_future l in
  (fut, (w, {| Loop.queue := (Loop.queue l ++ [(fut, call)])%list;
               Loop.resolved := Loop.resolved l;
               Loop.next_future := S fut |})).

(** A worker takes any waiting call, runs it to completion against the
    remote service (its one request and the answer to it) and resolves
    its future with the outcome. *)
Inductive worker_step : AsyncState -> AsyncState -> Prop :=
| worker_runs : forall w l before fut call after r w',
    Loop.queue l = (before ++ (fut, call) :: after)%list ->
    call w = (r, w') ->
    worker_step (w, l)
      (w', {| Loop.queue := (before ++ after)%list;
              Loop.resolved := (fut, r) :: Loop.resolved l;
              Loop.next_future := Loop.next_future l |}).

Inductive worker_steps : AsyncState -> AsyncState -> Prop :=
| steps_none : forall st, worker_steps st st
| steps_more : forall st1 st2 st3,
    worker_step st1 st2 -> worker_steps st2 st3 -> worker_steps st1 st3.

(** While a caller is suspended the workers run waiting calls, in any
    order, and the other tasks of the event loop hand over calls of their
    own. *)
Inductive loop_step : AsyncState -> AsyncState -> Prop :=
| a_worker_runs : forall st st',
    worker_step st st' -> loop_step st st'
| a_task_dispatches : forall (call : M value) st,
    loop_step st (snd (run_in_executor call st)).

Inductive loop_steps : AsyncState -> AsyncState -> Prop :=
| loop_steps_none : forall st, loop_steps st st
| loop_steps_more : forall st1 st2 st3,
    loop_step st1 st2 -> loop_steps st2 st3 -> loop_steps st1 st3.

(** [await fut]: the caller resumes, with the outcome of the future, in a
    state the loop has reached in which the future is resolved. *)
Definition awaits (fut : nat) (st : AsyncState) (r : Result value)
           (st' : AsyncState) : Prop :=
  loop_steps st st' /\ Loop.lookup fut (Loop.resolved (snd st')) = Some r.

(** The same when no other task hands a call over meanwhile. *)
Definition awaits_undisturbed (fut : nat) (st : AsyncState)
           (r : Result value) (st' : AsyncState) : Prop :=
  worker_steps st st' /\ Loop.lookup fut (Loop.resolved (snd st')) = Some r.

(** A coroutine of the adapter: [return await loop.run_in_executor(...)]. *)
Definition coroutine := AsyncState -> nat * AsyncState.

Definition completes (co : coroutine) (st : AsyncState) (r : Result value)
           (st' : AsyncState) : Prop :=
  awaits (fst (co st)) (snd (co st)) r st'.

Definition completes_undisturbed (co : coroutine) (st : AsyncState)
           (r : Result value) (st' : AsyncState) : Prop :=
  awaits_undisturbed (fst (co st)) (snd (co st)) r st'.

Definition create_agent_async {pydantic : Validate.conversions}
           (self : InvortoClient.t) (config : AgentConfig.t)
  : coroutine :=
  run_in_executor (returning VAgent (create_agent self config)).

Definition get_agent_async {pydantic : Validate.conversions}
           (self : InvortoClient.t) (agent_id : string)
  : coroutine :=
  run_in_executor (returning VAgent (get_agent self agent_id)).

Definition list_agents_async (self : InvortoClient.t)
           (options : option ListOptions.t) : coroutine :=
  run_in_executor (returning VPage (list_agents self options)).

Definition create_call_async (self : InvortoClient.t) (options : CallOptions.t)
  : coroutine :=
  run_in_executor (returning VJson (create_call self options)).

Definition get_call_async {pydantic : Validate.conversions}
           (self : InvortoClient.t) (call_id : string)
  : coroutine :=
  run_in_executor (returning VCall (get_call self call_id)).

Definition list_calls_async (self : InvortoClient.t)
           (options : option CallListOptions.t) : coroutine :=
  run_in_executor (returning VPage (list_calls self options)).

Definition update_call_status_async {pydantic : Validate.conversions}
           (self : InvortoClient.t)
           (call_id status : string) (metadata : option dict) : coroutine :=
  run_in_executor (returning VCall (update_call_status self call_id status metadata)).

Definition get_call_timeline_async (self : InvortoClient.t) (call_id : string)
  : coroutine :=
  run_in_executor (returning VEvents (get_call_timeline self call_id)).

Definition get_call_artifacts_async (self : InvortoClient.t) (call_id : string)
  : coroutine :=
  run_in_executor (returning VArtifacts (get_call_artifacts self call_id)).

Definition get_tenant_usage_async (self : InvortoClient.t)
           (tenant_id period : string) : coroutine :=
  run_in_executor (returning VUsage (get_tenant_usage self tenant_id period)).

Definition get_call_analytics_async {pydantic : Validate.conversions}
           (self : InvortoClient.t) (call_id : string)
  : coroutine :=
  run_in_executor (returning VAnalytics (get_call_analytics self call_id)).

Definition update_agent_async {pydantic : Validate.conversions}
           (self : InvortoClient.t) (agent_id : string)
           (updates : dict) : coroutine :=
  run_in_executor (returning VAgent (update_agent self agent_id updates)).

Definition delete_agent_async (self : InvortoClient.t) (agent_id : string)
  : coroutine :=
  run_in_executor (returning VJson (delete_agent self agent_id)).

Definition health_check_async (self : InvortoClient.t) : coroutine :=
  run_in_executor (returning VJson (health_check self)).

Definition get_metrics_async (self : InvortoClient.t) : coroutine :=
  run_in_executor (returning VText (get_metrics self)).

(** The methods [AsyncInvortoClient] adds, in source order. *)
Definition AsyncInvortoClient_methods : list string :=
  [ "create_agent_async"; "get_agent_async"; "list_agents_async";
    "create_call_async"; "get_call_async"; "list_calls_async";
    "update_call_status_async"; "get_call_timeline_async";
    "get_call_artifacts_async"; "get_tenant_usage_async";
    "get_call_analytics_async"; "update_agent_async"; "delete_agent_async";
    "health_check_async"; "get_metrics_async" ].

(** One call of a facade method that issues a single request, with its
    arguments. *)
Inductive invocation : Type :=
| Create_agent (config : AgentConfig.t)
| Get_agent (agent_id : string)
| List_agents (options : option ListOptions.t)
| Update_agent (agent_id : string) (updates : dict)
| Delete_agent (agent_id : string)
| Create_call (options : CallOptions.t)
| Get_call (call_id : string)
| List_calls (options : option CallListOptions.t)
| Update_call_status (call_id status : string) (metadata : option dict)
| Get_call_timeline (call_id : string)
| Get_call_artifacts (call_id : string)
| Get_tenant_usage (tenant_id period : string)
| Get_call_analytics (call_id : string)
| Health_check
| Get_metrics.

Definition method_name (i : invocation) : string :=
  match i with
  | Create_agent _ => "create_agent"
  | Get_agent _ => "get_agent"
  | List_agents _ => "list_agents"
  | Update_agent _ _ => "update_agent"
  | Delete_agent _ => "delete_agent"
  | Create_call _ => "create_call"
  | Get_call _ => "get_call"
  | List_calls _ => "list_calls"
  | Update_call_status _ _ _ => "update_call_status"
  | Get_call_timeline _ => "get_call_timeline"
  | Get_call_artifacts _ => "get_call_artifacts"
  | Get_tenant_usage _ _ => "get_tenant_usage"
  | Get_call_analytics _ => "get_call_analytics"
  | Health_check => "health_check"
  | Get_metrics => "get_metrics"
  end.

(** The blocking call [self.<method>(args)]. *)
Definition blocking {pydantic : Validate.conversions}
           (self : InvortoClient.t) (i : invocation) : M value :=
  match i with
  | Create_agent config => returning VAgent (create_agent self config)
  | Get_agent agent_id => returning VAgent (get_agent self agent_id)
  | List_agents options => returning VPage (list_agents self options)
  | Update_agent agent_id updates =>
      returning VAgent (update_agent self agent_id updates)
  | Delete_agent agent_id => returning VJson (delete_agent self agent_id)
  | Create_call options => returning VJson (create_call self options)
  | Get_call call_id => returning VCall (get_call self call_id)
  | List_calls options => returning VPage (list_calls self options)
  | Update_call_status call_id status metadata =>
      returning VCall (update_call_status self call_id status metadata)
  | Get_call_timeline call_id =>
      returning VEvents (get_call_timeline self call_id)
  | Get_call_artifacts call_id =>
      returning VArtifacts (get_call_artifacts self call_id)
  | Get_tenant_usage tenant_id period =>
      returning VUsage (get_tenant_usage self tenant_id period)
  | Get_call_analytics call_id =>
      returning VAnalytics (get_call_analytics self call_id)
  | Health_check => returning VJson (health_check self)
  | Get_metrics => returning VText (get_metrics self)
  end.

(** The coroutine [self.<method>_async(args)]. *)
Definition nonblocking {pydantic : Validate.conversions}
           (self : InvortoClient.t) (i : invocation) : coroutine :=
  match i with
  | Create_agent config => create_agent_async self config
  | Get_agent agent_id => get_agent_async self agent_id
  | List_agents options => list_agents_async self options
  | Update_agent agent_id updates => update_agent_async self agent_id updates
  | Delete_agent agent_id => delete_agent_async self agent_id
  | Create_call options => create_call_async self options
  | Get_call call_id => get_call_async self call_id
  | List_calls options => list_calls_async self options
  | Update_call_status call_id status metadata =>
      update_call_status_async self call_id status metadata
  | Get_call_timeline call_id => get_call_timeline_async self call_id
  | Get_call_artifacts call_id => get_call_artifacts_async self call_id
  | Get_tenant_usage tenant_id period =>
      get_tenant_usage_async self tenant_id period
  | Get_call_analytics call_id => get_call_analytics_async self call_id
  | Health_check => health_check_async self
  | Get_metrics => get_metrics_async self
  end.

(* ===================================================================== *)
(** * The phone-number rules as the specification words them *)
(* ===================================================================== *)

Module PhoneSpec.

Definition all_chars (p : N -> bool) (s : ustr) : bool := forallb p s.

(** Whitespace characters, hyphens and parentheses. *)
Definition is_separator (c : N) : bool :=
  existsb (N.eqb c) Unicode.whitespace
  || (c =? 45)%N || (c =? 40)%N || (c =? 41)%N.

Fixpoint strip_separators (s : ustr) : ustr :=
  match s with
  | [] => []
  | c :: rest =>
      if is_separator c then strip_separators rest
      else c :: strip_separators rest
  end.

(** A decimal digit of any script. *)
Definition is_digit (c : N) : bool :=
  Unicode.in_ranges c Unicode.decimal_digits.

Definition is_digit_1_9 (c : N) : bool :=
  existsb (N.eqb c) (u "123456789").

(** An optional leading '+', a first digit in 1-9, up to 15 further
    digits. *)
Definition international_format (s : ustr) : Prop :=
  exists sign first further,
    s = (sign ++ first :: further)%list
    /\ (sign = [] \/ sign = u "+")
    /\ is_digit_1_9 first = true
    /\ all_chars is_digit further = true
    /\ length further <= 15.

(** The digits of a country code such as "+91". *)
Definition country_digits (country_code : ustr) : ustr :=
  if Unicode.startswith (u "+") country_code then Unicode.drop1 country_code
  else country_code.

Definition ten_digits (s : ustr) : bool :=
  all_chars is_digit s && (length s =? 10).

(** The precedence rules as the specification words them: an input
    already prefixed with '+'; a leading '0'; the country-code digits
    followed by 10 digits; exactly 10 digits; anything else. *)
Definition format_rules (phone_number country_code : ustr) : ustr :=
  let cleaned := strip_separators phone_number in
  let digits := country_digits country_code in
  if Unicode.startswith (u "+") cleaned then cleaned
  else if Unicode.startswith (u "0") cleaned
       then (country_code ++ Unicode.drop1 cleaned)%list
  else if Unicode.startswith digits cleaned
          && ten_digits (skipn (length digits) cleaned)
       then (u "+" ++ cleaned)%list
  else if ten_digits cleaned then (country_code ++ cleaned)%list
  else phone_number.

(** The validation rule read to the letter: the space character, the
    hyphen and the parentheses are removed; a digit is one of 0-9. *)
Definition is_space_hyphen_or_parenthesis (c : N) : bool :=
  existsb (N.eqb c) (u " -()").

Definition is_digit_0_9 (c : N) : bool :=
  existsb (N.eqb c) (u "0123456789").

Definition valid_to_the_letter (phone_number : ustr) : bool :=
  let cleaned :=
    filter (fun c => negb (is_space_hyphen_or_parenthesis c)) phone_number in
  let unsigned :=
    if Unicode.startswith (u "+") cleaned then Unicode.drop1 cleaned
    else cleaned in
  match unsigned with
  | [] => false
  | first :: further =>
      is_digit_1_9 first && forallb is_digit_0_9 further
      && (length further <=? 15)
  end.

End PhoneSpec.

(* ===================================================================== *)
(** * The wire protocol as the specification lists it *)
(* ===================================================================== *)

Module WireSpec.

(** Method and path of each operation. *)
Definition endpoint (i : invocation) : string * string :=
  match i with
  | Create_agent _ => ("POST", "/v1/agents")
  | Get_agent id => ("GET", "/v1/agents/" ++ id)
  | List_agents _ => ("GET", "/v1/agents")
  | Update_agent id _ => ("PATCH", "/v1/agents/" ++ id)
  | Delete_agent id => ("DELETE", "/v1/agents/" ++ id)
  | Create_call _ => ("POST", "/v1/calls")
  | Get_call id => ("GET", "/v1/calls/" ++ id)
  | List_calls _ => ("GET", "/v1/calls")
  | Update_call_status id _ _ => ("PATCH", "/v1/calls/" ++ id ++ "/status")
  | Get_call_timeline id => ("GET", "/v1/calls/" ++ id ++ "/timeline")
  | Get_call_artifacts id => ("GET", "/v1/calls/" ++ id ++ "/artifacts")
  | Get_tenant_usage id _ => ("GET", "/v1/tenants/" ++ id ++ "/usage")
  | Get_call_analytics id => ("GET", "/v1/realtime/" ++ id ++ "/stats")
  | Health_check => ("GET", "/health")
  | Get_metrics => ("GET", "/metrics")
  end.

(** A success status is a 2xx status. *)
Definition success_status (status : Z) : bool :=
  ((200 <=? status) && (status <? 300))%Z.

End WireSpec.

(* ===================================================================== *)
(** * Sample values *)
(* ===================================================================== *)

Module Sample.

(** A pydantic that converts between the two kinds of JSON number only:
    a whole number given as a float to the integer, and an integer to the
    float nearest to it. *)
Definition pydantic : Validate.conversions :=
  {| Validate.to_int := fun v =>
       match v with
       | JFloat (S754_zero _) => Some 0%Z
       | JFloat (S754_finite sign m e) =>
           match e with
           | Z0 => Some (cond_Zopp sign (Zpos m))
           | Zpos k => Some (cond_Zopp sign (Zpos m * 2 ^ Zpos k))
           | Zneg k =>
               if (Zpos m mod 2 ^ Zpos k =? 0)%Z
               then Some (cond_Zopp sign (Zpos m / 2 ^ Zpos k))
               else None
           end
       | _ => None
       end;
     Validate.to_float := fun v =>
       match v with
       | JInt n => Some (binary_normalize 53 1024 n 0 false)
       | _ => None
       end |}.

Definition client : InvortoClient.t :=
  InvortoClient_init "secret" "https://api.invorto.ai//" (Some "tenant-1").

(** A remote end that cannot be reached. *)
Definition offline : World :=
  {| remote := fun _ => Unreachable; sent := [] |}.

(** A session that refuses every body. *)
Definition refusing : World :=
  {| remote := fun _ => Failure InvalidJSONError; sent := [] |}.

(** A remote end that gives the same answer to every request. *)
Definition answering (r : Response) : World :=
  {| remote := fun _ => Reply r; sent := [] |}.

Definition config : AgentConfig.t :=
  {| AgentConfig.name := "Asha";
     AgentConfig.prompt := "You are a helpful assistant.";
     AgentConfig.voice := None;
     AgentConfig.locale := Some "en-IN";
     AgentConfig.temperature := Some float_0_7;
     AgentConfig.model := Some "gpt-4o-mini";
     AgentConfig.max_tokens := Some 1000%Z;
     AgentConfig.system_prompt := None;
     AgentConfig.tools := None;
     AgentConfig.metadata := Some [("team", JStr "support"); ("tier", JNull)] |}.

(** As [config], with [locale=None] given explicitly. *)
Definition config_no_locale : AgentConfig.t :=
  {| AgentConfig.name := "Asha";
     AgentConfig.prompt := "You are a helpful assistant.";
     AgentConfig.voice := None;
     AgentConfig.locale := None;
     AgentConfig.temperature := Some float_0_7;
     AgentConfig.model := Some "gpt-4o-mini";
     AgentConfig.max_tokens := Some 1000%Z;
     AgentConfig.system_prompt := None;
     AgentConfig.tools := None;
     AgentConfig.metadata := None |}.

(** [CallOptions(agent_id=..., to=..., **{"from": ...})] *)
Definition call_options : CallOptions.t :=
  {| CallOptions.agent_id := "agent-1";
     CallOptions.to := "+919876543210";
     CallOptions.from_ := Some "+911234567890";
     CallOptions.direction := OUTBOUND;
     CallOptions.metadata := None;
     CallOptions.recording := Some true;
     CallOptions.transcription := Some true |}.

(** The default listing options, with the caller number set. *)
Definition calls_from : CallListOptions.t :=
  {| CallListOptions.page := Some 1%Z;
     CallListOptions.limit := Some 50%Z;
     CallListOptions.search := None;
     CallListOptions.status := None;
     CallListOptions.sort_by := None;
     CallListOptions.sort_order := Some "desc";
     CallListOptions.agent_id := None;
     CallListOptions.from_ := Some "+911234567890";
     CallListOptions.to := None |}.

(** A [Call] payload with the given cost. *)
Definition call_payload (cost_inr : json) : dict :=
  [ ("id", JStr "call-1"); ("agent_id", JStr "agent-1");
    ("direction", JStr "outbound");
    ("from_num", JStr "+911234567890"); ("to_num", JStr "+919876543210");
    ("status", JStr "completed");
    ("started_at", JStr "2024-01-01T00:00:00Z");
    ("cost_inr", cost_inr) ].

Definition call_response (cost_inr : json) : Response :=
  {| status_code := 200; text := "";
     json_ := Some (JDict (call_payload cost_inr)) |}.

(** An [Agent] payload that echoes the given encoded configuration. *)
Definition agent_payload (encoded : dict) : dict :=
  [ ("id", JStr "agent-1"); ("name", JStr "Asha");
    ("config", JDict encoded); ("status", JStr "active");
    ("tenant_id", JStr "tenant-1");
    ("created_at", JStr "2024-01-01T00:00:00Z");
    ("updated_at", JStr "2024-01-01T00:00:00Z") ].

Definition agent_response (status : Z) (encoded : dict) : Response :=
  {| status_code := status; text := "";
     json_ := Some (JDict (agent_payload encoded)) |}.

(** The answer 304 with the body of an agent. *)
Definition not_modified : Response :=
  agent_response 304 (AgentConfig_model_dump config).

(** The answer 304 as a server sends it, without a body. *)
Definition not_modified_empty : Response :=
  {| status_code := 304; text := ""; json_ := None |}.

(** The answer 404 with no JSON body. *)
Definition not_found : Response :=
  {| status_code := 404; text := "Not Found"; json_ := None |}.

(** The answer 200 with an empty JSON object for a body. *)
Definition empty_object : Response :=
  {| status_code := 200; text := "{}"; json_ := Some (JDict []) |}.

(** The answer 200 with a JSON array for a body. *)
Definition array_body : Response :=
  {| status_code := 200; text := "[]"; json_ := Some (JList []) |}.

(** A remote end that creates the first agent asked for and answers
    every later request with status 500. *)
Definition failing_after_one : World :=
  {| remote := fun issued =>
       match issued with
       | [_] => Reply (agent_response 201 (AgentConfig_model_dump config))
       | _ => Reply {| status_code := 500; text := "error"; json_ := None |}
       end;
     sent := [] |}.

(** The loop after another task has handed over a call that no worker has
    run yet. *)
Definition busy : Loop.t :=
  snd (snd (run_in_executor (blocking (pydantic := pydantic) client Get_metrics)
              (offline, Loop.empty))).

End Sample.

(* ===================================================================== *)
(** * Vocabulary of the statements *)
(* ===================================================================== *)

(** The request [_make_request] builds. *)
Definition issue (self : InvortoClient.t) (method endpoint : string)
           (json_kw params_kw : option dict) : Request :=
  {| method := method; url := InvortoClient.base_url self ++ endpoint;
     headers := InvortoClient.session_headers self;
     json_kw := json_kw; params_kw := params_kw |}.

Definition after (w : World) (req : Request) : World :=
  {| remote := remote w; sent := (sent w ++ [req])%list |}.

(** No key of the mapping holds the absent value. *)
Definition no_absent_value (d : dict) : Prop :=
  Forall (fun kv => snd kv <> JNull) d.

Definition present {A : Type} (o : option A) : bool :=
  match o with
  | Some _ => true
  | None => false
  end.

(** The declared fields of a parameter object, each with whether it
    holds a value. *)
Definition AgentConfig_fields (c : AgentConfig.t) : list (string * bool) :=
  [ ("name", true); ("prompt", true);
    ("voice", present (AgentConfig.voice c));
    ("locale", present (AgentConfig.locale c));
    ("temperature", present (AgentConfig.temperature c));
    ("model", present (AgentConfig.model c));
    ("max_tokens", present (AgentConfig.max_tokens c));
    ("system_prompt", present (AgentConfig.system_prompt c));
    ("tools", present (AgentConfig.tools c));
    ("metadata", present (AgentConfig.metadata c)) ].

Definition CallOptions_fields (o : CallOptions.t) : list (string * bool) :=
  [ ("agent_id", true); ("to", true);
    ("from_", present (CallOptions.from_ o));
    ("direction", true);
    ("metadata", present (CallOptions.metadata o));
    ("recording", present (CallOptions.recording o));
    ("transcription", present (CallOptions.transcription o)) ].

Definition ListOptions_fields (o : ListOptions.t) : list (string * bool) :=
  [ ("page", present (ListOptions.page o));
    ("limit", present (ListOptions.limit o));
    ("search", present (ListOptions.search o));
    ("status", present (ListOptions.status o));
    ("sort_by", present (ListOptions.sort_by o));
    ("sort_order", present (ListOptions.sort_order o)) ].

Definition CallListOptions_fields (o : CallListOptions.t)
  : list (string * bool) :=
  [ ("page", present (CallListOptions.page o));
    ("limit", present (CallListOptions.limit o));
    ("search", present (CallListOptions.search o));
    ("status", present (CallListOptions.status o));
    ("sort_by", present (CallListOptions.sort_by o));
    ("sort_order", present (CallListOptions.sort_order o));
    ("agent_id", present (CallListOptions.agent_id o));
    ("from_", present (CallListOptions.from_ o));
    ("to", present (CallListOptions.to o)) ].

(** The names of the fields that hold a value, in declaration order. *)
Definition present_fields (fields : list (string * bool)) : list string :=
  map fst (filter snd fields).

(** A configuration in which every absent field that has a default holds
    that default. *)
Definition AgentConfig_with_defaults (c : AgentConfig.t) : AgentConfig.t :=
  let or_default {A : Type} (o : option A) (d : A) : option A :=
    match o with
    | Some v => Some v
    | None => Some d
    end in
  {| AgentConfig.name := AgentConfig.name c;
     AgentConfig.prompt := AgentConfig.prompt c;
     AgentConfig.voice := AgentConfig.voice c;
     AgentConfig.locale := or_default (AgentConfig.locale c) "en-IN";
     AgentConfig.temperature := or_default (AgentConfig.temperature c) float_0_7;
     AgentConfig.model := or_default (AgentConfig.model c) "gpt-4o-mini";
     AgentConfig.max_tokens := or_default (AgentConfig.max_tokens c) 1000%Z;
     AgentConfig.system_prompt := AgentConfig.system_prompt c;
     AgentConfig.tools := AgentConfig.tools c;
     AgentConfig.metadata := AgentConfig.metadata c |}.

(** The entity an operation decodes its response body into, for the
    operations that construct exactly one entity from it. *)
Definition entity_schema {pydantic : Validate.conversions} (i : invocation)
  : option (dict -> Validate.res value) :=
  let as_ {A : Type} (inj : A -> value) (validate : dict -> Validate.res A) :=
    Some (fun d => Validate.Valid inj <*> validate d) in
  match i with
  | Create_agent _ | Get_agent _ | Update_agent _ _ => as_ VAgent validate_Agent
  | List_agents _ | List_calls _ => as_ VPage validate_PaginatedResponse
  | Get_call _ | Update_call_status _ _ _ => as_ VCall validate_Call
  | Get_call_artifacts _ => as_ VArtifacts validate_CallArtifacts
  | Get_tenant_usage _ _ => as_ VUsage validate_TenantUsage
  | Get_call_analytics _ => as_ VAnalytics validate_CallAnalytics
  | Delete_agent _ | Create_call _ | Get_call_timeline _
  | Health_check | Get_metrics => None
  end.

(** The request an operation issues: the method and path of the endpoint
    table, the encoded body for a write and the encoded query for a
    read. *)
Definition request_of (self : InvortoClient.t) (i : invocation) : Request :=
  let (json_kw, params_kw) :=
    match i with
    | Create_agent config => (Some (AgentConfig_model_dump config), None)
    | Update_agent _ updates => (Some updates, None)
    | Create_call options => (Some (create_call_data options), None)
    | Update_call_status _ status metadata =>
        (Some ([("status", JStr status)]
               ++ match metadata with
                  | Some m => if Dict.truthy m then [("metadata", JDict m)] else []
                  | None => []
                  end)%list, None)
    | List_agents options =>
        (None, Some (ListOptions_model_dump
                       match options with
                       | None => ListOptions.default
                       | Some o => o
                       end))
    | List_calls options => (None, Some (list_calls_params options))
    | Get_tenant_usage _ period => (None, Some [("period", JStr period)])
    | _ => (None, None)
    end in
  issue self (fst (WireSpec.endpoint i)) (snd (WireSpec.endpoint i))
    json_kw params_kw.

(** What an operation makes of a response that [raise_for_status] let
    through. *)
Definition handle {pydantic : Validate.conversions} (i : invocation)
           (response : Response) : M value :=
  match i with
  | Get_metrics => ret (VText (text response))
  | Delete_agent _ | Create_call _ | Health_check =>
      returning VJson (response_json response)
  | Create_agent _ | Get_agent _ | Update_agent _ _ =>
      data <- response_json response ;;
      returning VAgent (construct validate_Agent data)
  | List_agents _ | List_calls _ =>
      data <- response_json response ;;
      returning VPage (construct validate_PaginatedResponse data)
  | Get_call _ | Update_call_status _ _ _ =>
      data <- response_json response ;;
      returning VCall (construct validate_Call data)
  | Get_call_timeline _ =>
      data <- response_json response ;;
      returning VEvents (timeline_events data)
  | Get_call_artifacts _ =>
      data <- response_json response ;;
      returning VArtifacts (construct validate_CallArtifacts data)
  | Get_tenant_usage _ _ =>
      data <- response_json response ;;
      returning VUsage (construct validate_TenantUsage data)
  | Get_call_analytics _ =>
      data <- response_json response ;;
      returning VAnalytics (construct validate_CallAnalytics data)
  end.

(** A status for which [raise_for_status] raises. *)
Definition error_status (status : Z) : Prop := (400 <= status < 600)%Z.

(** The exceptions that come from the exchange with the service, as
    opposed to those raised while the body of the answer is decoded. *)
Definition transport_exception (e : exn) : bool :=
  match e with
  | ConnectionError | RequestException _ | HTTPError _ _ => true
  | _ => false
  end.

(** A computation that raises no exception of the transport. *)
Definition no_transport_exception {A : Type} (m : M A) : Prop :=
  forall w e, fst (m w) = Raise e -> transport_exception e = false.

(** [runs f items w results w']: calling [f] on the items one after the
    other, each in the world the one before left, succeeds every time; the
    results come in the order of the items. *)
Inductive runs {A B : Type} (f : A -> M B)
  : list A -> World -> list B -> World -> Prop :=
| runs_nil : forall w, runs f [] w [] w
| runs_cons : forall x rest w b w1 results w',
    f x w = (Ok b, w1) ->
    runs f rest w1 results w' ->
    runs f (x :: rest) w (b :: results) w'.

(** The two ways a batch can end.  Either every call succeeded: the list
    of all results is returned, one per item, and the requests issued are
    those of the items, in order.  Or the calls before some item
    succeeded and the call on that item raised: the batch raises the same
    exception, no list is returned, and the requests issued are those of
    the items up to that one, in order, with nothing after them. *)
Inductive batch_outcome {A B : Type} (f : A -> M B) (request : A -> Request)
          (items : list A) (w : World) : Result (list B) * World -> Prop :=
| batch_completed : forall results w',
    runs f items w results w' ->
    length results = length items ->
    sent w' = (sent w ++ map request items)%list ->
    batch_outcome f request items w (Ok results, w')
| batch_aborted : forall before x rest results w1 e w2,
    items = (before ++ x :: rest)%list ->
    runs f before w results w1 ->
    f x w1 = (Raise e, w2) ->
    sent w2 = (sent w ++ map request (before ++ [x]))%list ->
    batch_outcome f request items w (Raise e, w2).

(** The request a [create_agent] issues for a configuration, and a
    [create_call] for its options. *)
Definition create_agent_request (self : InvortoClient.t) (c : AgentConfig.t)
  : Request :=
  issue self "POST" "/v1/agents" (Some (AgentConfig_model_dump c)) None.

Definition create_call_request (self : InvortoClient.t) (o : CallOptions.t)
  : Request :=
  issue self "POST" "/v1/calls" (Some (create_call_data o)) None.

(** The state in which the only call handed over has run. *)
Definition resolved_alone (call : M value) (w : World) (l : Loop.t)
  : AsyncState :=
  (snd (call w),
   {| Loop.queue := [];
      Loop.resolved := (Loop.next_future l, fst (call w)) :: Loop.resolved l;
      Loop.next_future := S (Loop.next_future l) |}).

(** The future waits for a worker: its call is in the queue, once, and
    it is not resolved. *)
Definition pending (fut : nat) (call : M value) (st : AsyncState) : Prop :=
  Loop.waiting fut (Loop.queue (snd st)) = [(fut, call)]
  /\ Loop.lookup fut (Loop.resolved (snd st)) = None
  /\ fut < Loop.next_future (snd st).

(** The future is resolved with the outcome and no call waits under its
    identifier. *)
Definition settled (fut : nat) (r : Result value) (st : AsyncState) : Prop :=
  Loop.waiting fut (Loop.queue (snd st)) = []
  /\ Loop.lookup fut (Loop.resolved (snd st)) = Some r
  /\ fut < Loop.next_future (snd st).

(** The loop states a program can reach: from the empty loop, by calls
    handed over and calls run. *)
Inductive reachable : AsyncState -> Prop :=
| reachable_start : forall w, reachable (w, Loop.empty)
| reachable_step : forall st st',
    reachable st -> loop_step st st' -> reachable st'.

(* ===================================================================== *)
(** * Vocabulary of the further properties *)
(* ===================================================================== *)

(** A string without whitespace, hyphens and parentheses. *)
Definition separator_free (s : ustr) : Prop :=
  PhoneSpec.all_chars (fun c => negb (PhoneSpec.is_separator c)) s = true.

(** A country code in the shape [validate_phone_number] accepts as the
    head of a number: '+', a digit in 1-9 and at most four more digits. *)
Definition country_code_shape (country_code : ustr) : Prop :=
  exists d ds,
    country_code = (u "+" ++ d :: ds)%list
    /\ PhoneSpec.is_digit_1_9 d = true
    /\ PhoneSpec.all_chars PhoneSpec.is_digit ds = true
    /\ length ds <= 4.

(** A list of keys without repetition, as a test. *)
Fixpoint distinct_keys (keys : list string) : bool :=
  match keys with
  | [] => true
  | k :: rest => negb (existsb (String.eqb k) rest) && distinct_keys rest
  end.

Definition validate_bool : Validate.validator bool := fun v =>
  match v with
  | JBool b => Validate.Valid b
  | _ => Validate.Invalid Validate.here
  end.

(** A number of the kind of the field, read as it stands. *)
Definition exact_int : Validate.validator Z := fun v =>
  match v with
  | JInt n => Validate.Valid n
  | _ => Validate.Invalid Validate.here
  end.

Definition exact_float : Validate.validator float := fun v =>
  match v with
  | JFloat f => Validate.Valid f
  | _ => Validate.Invalid Validate.here
  end.

(** Reading a configuration back from its encoded mapping, an absent key
    giving an absent field. *)
Definition AgentConfig_of_dump (d : dict) : Validate.res AgentConfig.t :=
  Validate.Valid AgentConfig.Build_t
  <*> Validate.required "name" Validate.str d
  <*> Validate.required "prompt" Validate.str d
  <*> Validate.optional "voice" Validate.str None d
  <*> Validate.optional "locale" Validate.str None d
  <*> Validate.optional "temperature" exact_float None d
  <*> Validate.optional "model" Validate.str None d
  <*> Validate.optional "max_tokens" exact_int None d
  <*> Validate.optional "system_prompt" Validate.str None d
  <*> Validate.optional "tools" (Validate.list_of Validate.dict_any) None d
  <*> Validate.optional "metadata" Validate.dict_any None d.

(** Reading call options back from the body of [create_call], under the
    internal names. *)
Definition CallOptions_of_body (d : dict) : Validate.res CallOptions.t :=
  Validate.Valid CallOptions.Build_t
  <*> Validate.required "agent_id" Validate.str d
  <*> Validate.required "to" Validate.str d
  <*> Validate.optional "from_" Validate.str None d
  <*> Validate.required "direction"
        (Validate.enum [INBOUND; OUTBOUND] Direction_value) d
  <*> Validate.optional "metadata" Validate.dict_any None d
  <*> Validate.optional "recording" validate_bool None d
  <*> Validate.optional "transcription" validate_bool None d.

(** Running one batch and then another in the world the first left: the
    results of both when both succeed, the first failure otherwise. *)
Definition then_batch {B : Type} (first second : M (list B)) : M (list B) :=
  fun w =>
    match first w with
    | (Ok r1, w1) =>
        match second w1 with
        | (Ok r2, w2) => (Ok (r1 ++ r2)%list, w2)
        | (Raise e, w2) => (Raise e, w2)
        end
    | (Raise e, w1) => (Raise e, w1)
    end.

(* ********************************************************************* *)
(** * Properties *)
(* ********************************************************************* *)

(* ===================================================================== *)
(** * Character classes *)
(* ===================================================================== *)

Lemma separator_class_spec (c : N) :
  separator_class c = PhoneSpec.is_separator c.
Proof.
  unfold separator_class, PhoneSpec.is_separator, Re.cls_union, Re.cls_space,
    Re.cls_char.
  rewrite !Bool.orb_assoc. reflexivity.
Qed.

Lemma cls_digit_spec (c : N) : Re.cls_digit c = PhoneSpec.is_digit c.
Proof. reflexivity. Qed.

Lemma existsb_eqb_In (c : N) (l : list N) :
  existsb (N.eqb c) l = true <-> In c l.
Proof.
  rewrite existsb_exists. split.
  - intros (x & Hx & E). apply N.eqb_eq in E. subst x. exact Hx.
  - intros H. exists c. split; [exact H | apply N.eqb_refl].
Qed.

Lemma cls_range_1_9_In (c : N) :
  Re.cls_range "1" "9" c = true <-> In c (u "123456789").
Proof.
  unfold Re.cls_range.
  change (Unicode.code "1") with 49%N. change (Unicode.code "9") with 57%N.
  rewrite Bool.andb_true_iff, N.leb_le, N.leb_le. split.
  - intros [Hlo Hhi].
    assert (E : (c = 49 \/ c = 50 \/ c = 51 \/ c = 52 \/ c = 53 \/ c = 54
                 \/ c = 55 \/ c = 56 \/ c = 57)%N) by lia.
    cbn. intuition auto.
  - cbn. intros H. repeat (destruct H as [<-|H]; [lia|]). contradiction.
Qed.

Lemma cls_range_1_9_spec (c : N) :
  Re.cls_range "1" "9" c = PhoneSpec.is_digit_1_9 c.
Proof.
  apply Bool.eq_iff_eq_true. unfold PhoneSpec.is_digit_1_9.
  rewrite cls_range_1_9_In, existsb_eqb_In. reflexivity.
Qed.

Lemma newline_is_separator : separator_class 10%N = true.
Proof. reflexivity. Qed.

Lemma sub_class_strip (s : ustr) :
  Re.sub_class separator_class [] s = PhoneSpec.strip_separators s.
Proof.
  induction s as [|c s IH]; simpl; [reflexivity|].
  rewrite separator_class_spec, IH. reflexivity.
Qed.

Lemma strip_no_separator (s : ustr) :
  PhoneSpec.all_chars (fun c => negb (PhoneSpec.is_separator c))
    (PhoneSpec.strip_separators s) = true.
Proof.
  unfold PhoneSpec.all_chars.
  induction s as [|c s IH]; simpl; [reflexivity|].
  destruct (PhoneSpec.is_separator c) eqn:E; simpl; [assumption|].
  rewrite E. simpl. assumption.
Qed.

(* ===================================================================== *)
(** * The matcher *)
(* ===================================================================== *)

Lemma take_upto_iff cls n : forall pos s k,
  Re.take_upto cls n pos s k = true <->
  exists taken rest,
    s = (taken ++ rest)%list
    /\ length taken <= n
    /\ PhoneSpec.all_chars cls taken = true
    /\ k (pos + length taken) rest = true.
Proof.
  unfold PhoneSpec.all_chars.
  induction n as [|n IH]; intros pos s k; simpl.
  - split.
    + intros H. exists [], s. simpl. rewrite Nat.add_0_r. auto.
    + intros (taken & rest & -> & Hlen & _ & Hk).
      destruct taken; simpl in *; [|lia]. rewrite Nat.add_0_r in Hk. exact Hk.
  - destruct s as [|c s].
    + split.
      * intros H. exists [], []. simpl. rewrite Nat.add_0_r. auto with arith.
      * intros (taken & rest & E & _ & _ & Hk).
        destruct taken; simpl in *; [|discriminate].
        subst rest. rewrite Nat.add_0_r in Hk. exact Hk.
    + rewrite Bool.orb_true_iff, Bool.andb_true_iff, IH. split.
      * intros [[Hc (taken & rest & -> & Hlen & Hall & Hk)] | Hk].
        -- exists (c :: taken), rest. simpl. rewrite Hc, Hall.
           rewrite <- Nat.add_succ_comm. repeat split; auto with arith.
        -- exists [], (c :: s). simpl. rewrite Nat.add_0_r.
           repeat split; auto with arith.
      * intros (taken & rest & E & Hlen & Hall & Hk).
        destruct taken as [|d taken]; simpl in *.
        -- right. subst rest. rewrite Nat.add_0_r in Hk. exact Hk.
        -- left. injection E as -> ->.
           apply Bool.andb_true_iff in Hall as [Hc Hall]. split; [exact Hc|].
           exists taken, rest. rewrite Nat.add_succ_r in Hk.
           repeat split; auto with arith.
Qed.

Lemma take_exact_iff cls n : forall pos s k,
  Re.take_exact cls n pos s k = true <->
  exists taken rest,
    s = (taken ++ rest)%list
    /\ length taken = n
    /\ PhoneSpec.all_chars cls taken = true
    /\ k (pos + n) rest = true.
Proof.
  unfold PhoneSpec.all_chars.
  induction n as [|n IH]; intros pos s k; simpl.
  - rewrite Nat.add_0_r. split.
    + intros H. exists [], s. auto.
    + intros (taken & rest & -> & Hlen & _ & Hk).
      destruct taken; [exact Hk | discriminate].
  - destruct s as [|c s].
    + split; [discriminate|]. intros (taken & rest & E & Hlen & _).
      destruct taken; discriminate.
    + rewrite Bool.andb_true_iff, IH. rewrite Nat.add_succ_r. split.
      * intros [Hc (taken & rest & -> & Hlen & Hall & Hk)].
        exists (c :: taken), rest. simpl. rewrite Hc, Hall, Hlen. auto.
      * intros (taken & rest & E & Hlen & Hall & Hk).
        destruct taken as [|d taken]; [discriminate|]. simpl in *.
        injection E as -> ->. injection Hlen as Hlen.
        apply Bool.andb_true_iff in Hall as [Hc Hall].
        split; [exact Hc|]. exists taken, rest. auto.
Qed.

Lemma all_chars_app p (s t : ustr) :
  PhoneSpec.all_chars p (s ++ t)
  = PhoneSpec.all_chars p s && PhoneSpec.all_chars p t.
Proof. apply forallb_app. Qed.

Lemma all_chars_ext p q (s : ustr) :
  (forall c, p c = q c) -> PhoneSpec.all_chars p s = PhoneSpec.all_chars q s.
Proof.
  intros H. induction s as [|c s IH]; simpl; [reflexivity|].
  rewrite H, IH. reflexivity.
Qed.

(** In a string free of separators the [$] anchor holds only at the end. *)
Lemma at_end_clean (s : ustr) :
  PhoneSpec.all_chars (fun c => negb (PhoneSpec.is_separator c)) s = true ->
  (Re.at_end s = true <-> s = []).
Proof.
  intros Hclean. destruct s as [|c [|d s]]; simpl.
  - tauto.
  - split; [|discriminate]. intros E. apply N.eqb_eq in E. subst c.
    simpl in Hclean. discriminate.
  - split; discriminate.
Qed.

(** A quantified class matches a run of its characters whose length lies
    within the bounds. *)
Lemma match_rep_iff cls lo hi p pos s :
  lo <= hi ->
  (Re.match_here (Re.Rep cls lo hi :: p) pos s = true <->
   exists taken rest,
     s = (taken ++ rest)%list
     /\ lo <= length taken <= hi
     /\ PhoneSpec.all_chars cls taken = true
     /\ Re.match_here p (pos + length taken) rest = true).
Proof.
  intros Hle. cbn [Re.match_here]. rewrite take_exact_iff. split.
  - intros (t1 & rest1 & -> & Hlen1 & Hall1 & Hk).
    apply take_upto_iff in Hk as (t2 & rest & -> & Hlen2 & Hall2 & Hk).
    exists (t1 ++ t2)%list, rest.
    rewrite <- app_assoc, length_app, all_chars_app.
    rewrite Hall1, Hall2, Nat.add_assoc, Hlen1. repeat split; auto; lia.
  - intros (taken & rest & -> & [Hlo Hhi] & Hall & Hk).
    exists (firstn lo taken), (skipn lo taken ++ rest)%list.
    assert (Hlen1 : length (firstn lo taken) = lo)
      by (rewrite length_firstn; lia).
    assert (Hlen2 : length (skipn lo taken) = length taken - lo)
      by apply length_skipn.
    rewrite <- (firstn_skipn lo taken) in Hall.
    rewrite all_chars_app in Hall.
    apply Bool.andb_true_iff in Hall as [Hall1 Hall2].
    repeat split.
    + rewrite app_assoc, firstn_skipn. reflexivity.
    + exact Hlen1.
    + exact Hall1.
    + apply take_upto_iff. exists (skipn lo taken), rest.
      rewrite Hlen2. repeat split; [lia | exact Hall2 |].
      replace (pos + lo + (length taken - lo))
        with (pos + length taken) by lia.
      exact Hk.
Qed.

Lemma match_caret p s : Re.match_here (Re.Caret :: p) 0 s = Re.match_here p 0 s.
Proof. reflexivity. Qed.

(** The regular expression on a string free of separators. *)
Lemma phone_regex_iff (s : ustr) :
  PhoneSpec.all_chars (fun c => negb (PhoneSpec.is_separator c)) s = true ->
  (Re.re_match phone_regex s = true <-> PhoneSpec.international_format s).
Proof.
  intros Hclean. unfold Re.re_match, phone_regex. rewrite match_caret.
  rewrite match_rep_iff by lia. split.
  - intros (sign & rest & -> & Hlen & Hsign & Hk).
    apply match_rep_iff in Hk as (one & rest' & -> & Hlen1 & Hone & Hk); [|lia].
    apply match_rep_iff in Hk as (further & tail & -> & Hlen2 & Hdig & Hk); [|lia].
    cbn [Re.match_here] in Hk. rewrite Bool.andb_true_r in Hk.
    rewrite !all_chars_app in Hclean.
    apply Bool.andb_true_iff in Hclean as [_ Hc].
    apply Bool.andb_true_iff in Hc as [_ Hc].
    apply Bool.andb_true_iff in Hc as [_ Hc].
    apply (at_end_clean _ Hc) in Hk. subst tail. rewrite app_nil_r.
    destruct one as [|first [|x one]]; simpl in Hlen1; try lia.
    simpl in Hone. rewrite Bool.andb_true_r in Hone.
    exists sign, first, further. repeat split.
    + destruct sign as [|c [|d sign]]; simpl in *; [auto| |lia].
      right. apply Bool.andb_true_iff in Hsign as [E _].
      apply N.eqb_eq in E. subst c. reflexivity.
    + rewrite <- cls_range_1_9_spec. exact Hone.
    + exact Hdig.
    + lia.
  - intros (sign & first & further & -> & Hsign & Hfirst & Hdig & Hlen).
    exists sign, (first :: further). repeat split.
    + lia.
    + destruct Hsign as [-> | ->]; simpl; auto with arith.
    + destruct Hsign as [-> | ->]; reflexivity.
    + apply match_rep_iff; [lia|]. exists [first], further.
      split; [reflexivity|]. split; [simpl; lia|]. split.
      * simpl. rewrite cls_range_1_9_spec, Hfirst. reflexivity.
      * apply match_rep_iff; [lia|]. exists further, [].
        rewrite app_nil_r. split; [reflexivity|]. split; [lia|]. split.
        -- exact Hdig.
        -- reflexivity.
Qed.

(* ===================================================================== *)
(** * Phone-number validation *)
(* ===================================================================== *)

(** The rule read to the letter and the code agree on the examples the
    specification lists. *)
Example valid_to_the_letter_examples :
  PhoneSpec.valid_to_the_letter (u "+919876543210") = true
  /\ PhoneSpec.valid_to_the_letter (u "(987) 654-3210") = true
  /\ PhoneSpec.valid_to_the_letter (u "abc123") = false.
Proof. repeat split; reflexivity. Qed.

(** C4, as stated, fails: the classes of the code are wider than spaces
    and the digits 0-9.  [\d] takes the decimal digits of every script, so
    '1' followed by ARABIC-INDIC DIGIT TWO and THREE is accepted; [\s]
    takes every whitespace character, so a tab or a line feed inside the
    number is removed like a space. *)
Lemma validate_phone_number_wider_classes :
  validate_phone_number [49; 1634; 1635]%N = true
  /\ PhoneSpec.valid_to_the_letter [49; 1634; 1635]%N = false
  /\ validate_phone_number (u "98765" ++ [9%N] ++ u "43210") = true
  /\ PhoneSpec.valid_to_the_letter (u "98765" ++ [9%N] ++ u "43210") = false
  /\ validate_phone_number (u "9876543210" ++ [10%N]) = true
  /\ PhoneSpec.valid_to_the_letter (u "9876543210" ++ [10%N]) = false.
Proof. repeat split; reflexivity. Qed.

(** C4, amended.  [validate_phone_number] returns true exactly when the
    input, once whitespace characters, hyphens and parentheses are
    removed, is an optional leading '+', a first digit in 1-9 and up to 15
    further decimal digits of any script; it accepts "+919876543210" and
    "(987) 654-3210" and rejects "abc123". *)
Theorem validate_phone_number_iff :
  (forall phone_number : ustr,
     validate_phone_number phone_number = true <->
     PhoneSpec.international_format (PhoneSpec.strip_separators phone_number))
  /\ validate_phone_number (u "+919876543210") = true
  /\ validate_phone_number (u "(987) 654-3210") = true
  /\ validate_phone_number (u "abc123") = false.
Proof.
  split; [|repeat split; reflexivity].
  intros phone_number. unfold validate_phone_number.
  rewrite sub_class_strip. apply phone_regex_iff. apply strip_no_separator.
Qed.

(* ===================================================================== *)
(** * Phone-number formatting *)
(* ===================================================================== *)

(** The rules of the specification agree with the code on the examples
    the specification lists. *)
Example format_rules_examples :
  PhoneSpec.format_rules (u "+919876543210") (u "+91") = u "+919876543210"
  /\ PhoneSpec.format_rules (u "09876543210") (u "+91") = u "+919876543210"
  /\ PhoneSpec.format_rules (u "919876543210") (u "+91") = u "+919876543210"
  /\ PhoneSpec.format_rules (u "9876543210") (u "+91") = u "+919876543210"
  /\ PhoneSpec.format_rules (u "123") (u "+91") = u "123".
Proof. repeat split; reflexivity. Qed.

(** C3, as stated, fails: the code tests the length of the stripped input,
    not that its characters are digits, so ten letters get the country
    code prepended where the rules return the input unchanged. *)
Lemma format_phone_number_not_digits_only :
  format_phone_number (u "abcdefghij") (u "+91") = u "+91abcdefghij"
  /\ PhoneSpec.format_rules (u "abcdefghij") (u "+91") = u "abcdefghij"
  /\ format_phone_number (u "abcdefghij") (u "+91")
     <> PhoneSpec.format_rules (u "abcdefghij") (u "+91").
Proof. repeat split; try reflexivity. discriminate. Qed.

(** The third rule of the code tests the prefix "91" whatever country
    code is configured. *)
Lemma format_phone_number_other_country_code :
  format_phone_number (u "15551234567") (u "+1") = u "15551234567"
  /\ PhoneSpec.format_rules (u "15551234567") (u "+1") = u "+15551234567"
  /\ format_phone_number (u "919876543210") (u "+1") = u "+919876543210"
  /\ PhoneSpec.format_rules (u "919876543210") (u "+1") = u "919876543210".
Proof. repeat split; reflexivity. Qed.

(** C3, amended.  With [cleaned] the input without whitespace, hyphens
    and parentheses, for every country code: a [cleaned] that starts with
    '+' is returned; otherwise one that starts with '0' loses that '0' and
    gets the country code prepended; otherwise one of exactly 10
    characters gets the country code prepended.  With the country code
    "+91": otherwise a [cleaned] of exactly 12 characters that starts with
    "91" gets '+' prepended, and every other input is returned as it was
    given.  The five examples of the specification hold. *)
Theorem format_phone_number_rules :
  forall phone_number country_code : ustr,
    let cleaned := PhoneSpec.strip_separators phone_number in
    (Unicode.startswith (u "+") cleaned = true ->
     format_phone_number phone_number country_code = cleaned)
    /\ (Unicode.startswith (u "+") cleaned = false ->
        Unicode.startswith (u "0") cleaned = true ->
        format_phone_number phone_number country_code
        = (country_code ++ Unicode.drop1 cleaned)%list)
    /\ (Unicode.startswith (u "+") cleaned = false ->
        Unicode.startswith (u "0") cleaned = false ->
        length cleaned = 10 ->
        format_phone_number phone_number country_code
        = (country_code ++ cleaned)%list)
    /\ (country_code = u "+91" ->
        Unicode.startswith (u "+") cleaned = false ->
        Unicode.startswith (u "0") cleaned = false ->
        Unicode.startswith (u "91") cleaned = true ->
        length cleaned = 12 ->
        format_phone_number phone_number country_code
        = (u "+" ++ cleaned)%list)
    /\ (country_code = u "+91" ->
        Unicode.startswith (u "+") cleaned = false ->
        Unicode.startswith (u "0") cleaned = false ->
        length cleaned <> 10 ->
        Unicode.startswith (u "91") cleaned && (length cleaned =? 12) = false ->
        format_phone_number phone_number country_code = phone_number)
    /\ format_phone_number (u "+919876543210") (u "+91") = u "+919876543210"
    /\ format_phone_number (u "09876543210") (u "+91") = u "+919876543210"
    /\ format_phone_number (u "919876543210") (u "+91") = u "+919876543210"
    /\ format_phone_number (u "9876543210") (u "+91") = u "+919876543210"
    /\ format_phone_number (u "123") (u "+91") = u "123".
Proof.
  intros phone_number country_code cleaned.
  unfold format_phone_number. rewrite sub_class_strip. fold cleaned.
  repeat split; try reflexivity.
  - intros ->. reflexivity.
  - intros -> ->. reflexivity.
  - intros -> -> E. rewrite E. change (10 =? 12) with false.
    rewrite Bool.andb_false_r. reflexivity.
  - intros _ -> -> -> ->. reflexivity.
  - intros _ -> -> Hlen ->. apply Nat.eqb_neq in Hlen. rewrite Hlen. reflexivity.
Qed.

Lemma format_phone_number_rules_witness :
  format_phone_number (u "+91 98765-43210") (u "+44") = u "+919876543210"
  /\ format_phone_number (u "(0) 98765-43210") (u "+44") = u "+449876543210"
  /\ format_phone_number (u "98765 43210") (u "+44") = u "+449876543210"
  /\ format_phone_number (u "91 98765 43210") (u "+91") = u "+919876543210"
  /\ format_phone_number (u "1 2 3") (u "+91") = u "1 2 3".
Proof.
  pose proof (format_phone_number_rules (u "+91 98765-43210") (u "+44"))
    as (H1 & _).
  pose proof (format_phone_number_rules (u "(0) 98765-43210") (u "+44"))
    as (_ & H2 & _).
  pose proof (format_phone_number_rules (u "98765 43210") (u "+44"))
    as (_ & _ & H3 & _).
  pose proof (format_phone_number_rules (u "91 98765 43210") (u "+91"))
    as (_ & _ & _ & H4 & _).
  pose proof (format_phone_number_rules (u "1 2 3") (u "+91"))
    as (_ & _ & _ & _ & H5 & _).
  split; [exact (H1 eq_refl)|].
  split; [exact (H2 eq_refl eq_refl)|].
  split; [exact (H3 eq_refl eq_refl eq_refl)|].
  split; [exact (H4 eq_refl eq_refl eq_refl eq_refl eq_refl)|].
  apply H5; try reflexivity. discriminate.
Defined.

(* ===================================================================== *)
(** * What a call leaves in the world *)
(* ===================================================================== *)

(** [_make_request] issues one request; what it returns is decided by
    the answer to that request alone. *)
Lemma make_request_run self method endpoint j p w :
  _make_request self method endpoint j p w =
  let req := issue self method endpoint j p in
  (match remote w (sent w ++ [req])%list with
   | Unreachable => Raise ConnectionError
   | Failure e => Raise (RequestException e)
   | Reply r =>
       if ((400 <=? status_code r) && (status_code r <? 600))%Z
       then Raise (HTTPError (status_code r) r)
       else match json_ r with
            | Some v => Ok v
            | None => Raise JSONDecodeError
            end
   end, after w req).
Proof.
  unfold _make_request, bind, session_request, raise_for_status, response_json,
    issue, after, raise, ret. cbv zeta.
  destruct (remote w _) as [r| |e]; [|reflexivity|reflexivity].
  destruct ((400 <=? status_code r) && (status_code r <? 600))%Z; [reflexivity|].
  destruct (json_ r); reflexivity.
Qed.

Lemma bind_world {A B : Type} (m : M A) (f : A -> M B) (w : World) :
  (forall a w', snd (f a w') = w') -> snd (bind m f w) = snd (m w).
Proof.
  intros Hf. unfold bind. destruct (m w) as [[a|e] w']; [apply Hf | reflexivity].
Qed.

Lemma construct_world {A : Type} (validate : dict -> Validate.res A) data w :
  snd (construct validate data w) = w.
Proof.
  unfold construct. destruct data; try reflexivity.
  destruct (validate d); reflexivity.
Qed.

Lemma ret_world {A : Type} (a : A) w : snd (ret a w) = w.
Proof. reflexivity. Qed.

Lemma construct_events_world events : forall w,
  snd (construct_events events w) = w.
Proof.
  induction events as [|e es IH]; intros w; [reflexivity|]. simpl.
  rewrite bind_world; [apply construct_world|].
  intros a w'. rewrite bind_world; [apply IH|]. intros; reflexivity.
Qed.

Lemma returning_world {A : Type} (inj : A -> value) (m : M A) w :
  snd (returning inj m w) = snd (m w).
Proof. unfold returning. apply bind_world. intros; reflexivity. Qed.

Lemma make_request_world self method endpoint j p w :
  snd (_make_request self method endpoint j p w)
  = after w (issue self method endpoint j p).
Proof. rewrite make_request_run. reflexivity. Qed.

Ltac world_of_call :=
  repeat first
    [ rewrite returning_world
    | rewrite make_request_world
    | rewrite bind_world;
      [| intros; first [ apply construct_world | reflexivity ] ] ].

Lemma create_agent_world {pydantic : Validate.conversions} self config w :
  snd (create_agent self config w)
  = after w (issue self "POST" "/v1/agents"
               (Some (AgentConfig_model_dump config)) None).
Proof. unfold create_agent. world_of_call. reflexivity. Qed.

Lemma create_call_world self options w :
  snd (create_call self options w)
  = after w (issue self "POST" "/v1/calls"
               (Some (create_call_data options)) None).
Proof. unfold create_call. world_of_call. reflexivity. Qed.

Lemma list_agents_world self options w :
  snd (list_agents self options w)
  = after w (issue self "GET" "/v1/agents" None
               (Some (ListOptions_model_dump
                        match options with
                        | None => ListOptions.default
                        | Some o => o
                        end))).
Proof. unfold list_agents. world_of_call. reflexivity. Qed.

Lemma list_calls_world self options w :
  snd (list_calls self options w)
  = after w (issue self "GET" "/v1/calls" None
               (Some (list_calls_params options))).
Proof. unfold list_calls. world_of_call. reflexivity. Qed.

Lemma timeline_events_world data w : snd (timeline_events data w) = w.
Proof.
  destruct data; try reflexivity. unfold timeline_events.
  rewrite bind_world; [|intros; apply construct_events_world].
  unfold iterate. destruct (match Dict.get "timeline" d with
                            | Some v => v | None => JList [] end); reflexivity.
Qed.


Lemma get_metrics_world self w :
  snd (get_metrics self w) = after w (issue self "GET" "/metrics" None None).
Proof.
  unfold get_metrics, bind, session_request, raise_for_status, raise, ret,
    issue, after.
  destruct (remote w _) as [r| |e]; [|reflexivity|reflexivity].
  destruct ((400 <=? status_code r) && (status_code r <? 600))%Z; reflexivity.
Qed.

(** Every single-request operation issues its request, waits for the
    answer, lets [raise_for_status] judge it and then handles it. *)
Lemma blocking_run {pydantic : Validate.conversions} self i w :
  blocking self i w
  = bind (session_request self (method (request_of self i))
            (url (request_of self i)) (json_kw (request_of self i))
            (params_kw (request_of self i)))
      (fun response => _ <- raise_for_status response ;; handle i response) w.
Proof.
  destruct i; cbn [blocking handle request_of WireSpec.endpoint fst snd
                   method url json_kw params_kw issue];
    unfold returning, create_agent, get_agent, list_agents, update_agent,
      delete_agent, create_call, get_call, list_calls, update_call_status,
      get_call_timeline, get_call_artifacts, get_tenant_usage,
      get_call_analytics, health_check, get_metrics, _make_request, bind;
    try (destruct metadata as [[|kv m]|];
         cbn [Dict.truthy Dict.set app String.eqb Ascii.eqb Bool.eqb]);
    match goal with
    | |- context [session_request ?c ?m ?u ?j ?p ?w0] =>
        destruct (session_request c m u j p w0) as [[response|e] w1]
    end; try reflexivity;
    match goal with
    | |- context [raise_for_status ?r ?w0] =>
        destruct (raise_for_status r w0) as [[[]|e'] w2]
    end; try reflexivity;
    try match goal with
        | |- context [response_json ?r ?w0] =>
            destruct (response_json r w0) as [[v|e'] w3]
        end; try reflexivity;
    match goal with
    | |- context [construct ?f ?d ?w0] =>
        destruct (construct f d w0) as [[a|e'] w4]
    | |- context [timeline_events ?d ?w0] =>
        destruct (timeline_events d w0) as [[a|e'] w4]
    end; reflexivity.
Qed.

Lemma handle_world {pydantic : Validate.conversions} i response w :
  snd (handle i response w) = w.
Proof.
  assert (Hjson : forall r w', snd (response_json r w') = w').
  { intros r w'. unfold response_json. destruct (json_ r); reflexivity. }
  destruct i; cbn [handle]; try reflexivity;
    repeat first
      [ rewrite returning_world
      | apply Hjson
      | rewrite bind_world;
        [| intros; rewrite ?returning_world;
           first [ apply construct_world | apply timeline_events_world ] ] ].
Qed.

Lemma blocking_world {pydantic : Validate.conversions} self i w :
  snd (blocking self i w) = after w (request_of self i).
Proof.
  rewrite blocking_run. rewrite bind_world.
  - unfold session_request, after. cbv zeta.
    destruct (request_of self i) as [m u h j p] eqn:E.
    assert (Hh : h = InvortoClient.session_headers self).
    { unfold request_of in E. destruct i; injection E; congruence. }
    subst h. cbn [method url json_kw params_kw].
    destruct (remote w _); reflexivity.
  - intros response w'. rewrite bind_world; [|intros; apply handle_world].
    unfold raise_for_status.
    destruct ((400 <=? status_code response) && (status_code response <? 600))%Z;
      reflexivity.
Qed.

(* ===================================================================== *)
(** * Dictionaries *)
(* ===================================================================== *)

Lemma no_absent_app (d1 d2 : dict) :
  no_absent_value d1 -> no_absent_value d2 -> no_absent_value (d1 ++ d2)%list.
Proof. intros H1 H2. apply Forall_app. split; assumption. Qed.

Lemma no_absent_dump_field {A : Type} key (enc : A -> json) (o : option A) :
  (forall v, enc v <> JNull) -> no_absent_value (dump_field key enc o).
Proof.
  intros Henc. destruct o as [v|]; simpl; [|constructor].
  constructor; [apply Henc | constructor].
Qed.

Lemma no_absent_one key (v : json) :
  v <> JNull -> no_absent_value [(key, v)].
Proof. intros H. constructor; [exact H | constructor]. Qed.

Lemma no_absent_set key v (d : dict) :
  v <> JNull -> no_absent_value d -> no_absent_value (Dict.set key v d).
Proof.
  intros Hv. induction 1 as [|[k' v'] d Hx Hd IH]; simpl.
  - apply no_absent_one. exact Hv.
  - destruct (String.eqb key k'); constructor; auto.
Qed.

Lemma no_absent_remove key (d : dict) :
  no_absent_value d -> no_absent_value (Dict.remove key d).
Proof.
  induction 1 as [|[k' v'] d Hx Hd IH]; simpl; [constructor|].
  destruct (String.eqb key k'); [exact IH | constructor; auto].
Qed.

Lemma no_absent_get key v (d : dict) :
  no_absent_value d -> Dict.get key d = Some v -> v <> JNull.
Proof.
  induction 1 as [|[k' v'] d Hx Hd IH]; simpl; [discriminate|].
  destruct (String.eqb key k'); [|exact IH].
  intros E. injection E as <-. exact Hx.
Qed.

Ltac no_absent :=
  repeat first
    [ apply no_absent_app
    | apply no_absent_one; discriminate
    | apply no_absent_dump_field; intros; discriminate ].

Lemma AgentConfig_dump_no_absent c : no_absent_value (AgentConfig_model_dump c).
Proof. unfold AgentConfig_model_dump. no_absent. Qed.

Lemma CallOptions_dump_no_absent o : no_absent_value (CallOptions_model_dump o).
Proof. unfold CallOptions_model_dump. no_absent. Qed.

Lemma ListOptions_dump_no_absent o : no_absent_value (ListOptions_model_dump o).
Proof. unfold ListOptions_model_dump. no_absent. Qed.

Lemma CallListOptions_dump_no_absent o :
  no_absent_value (CallListOptions_model_dump o).
Proof. unfold CallListOptions_model_dump. no_absent. Qed.

Lemma create_call_data_no_absent o : no_absent_value (create_call_data o).
Proof.
  unfold create_call_data. pose proof (CallOptions_dump_no_absent o) as H.
  destruct (CallOptions.from_ o) as [f|]; [|exact H].
  destruct (PyStr.truthy f); [|exact H].
  apply no_absent_set; [discriminate | exact H].
Qed.

Lemma list_calls_params_no_absent o : no_absent_value (list_calls_params o).
Proof.
  unfold list_calls_params.
  set (opts := match o with None => CallListOptions.default | Some x => x end).
  pose proof (CallListOptions_dump_no_absent opts) as H.
  destruct (Dict.get "from_" (CallListOptions_model_dump opts)) as [v|] eqn:E;
    [|exact H].
  apply no_absent_set; [|apply no_absent_remove, H].
  eapply no_absent_get; [exact H | exact E].
Qed.

(** The keys of each encoded mapping. *)

Lemma AgentConfig_dump_keys c :
  Dict.keys (AgentConfig_model_dump c) = present_fields (AgentConfig_fields c).
Proof.
  destruct c as [n p [v|] [l|] [t|] [m|] [mt|] [sp|] [tl|] [md|]]; reflexivity.
Qed.

Lemma CallOptions_dump_keys o :
  Dict.keys (CallOptions_model_dump o) = present_fields (CallOptions_fields o).
Proof. destruct o as [a t [f|] d [m|] [r|] [tr|]]; reflexivity. Qed.

Lemma ListOptions_dump_keys o :
  Dict.keys (ListOptions_model_dump o) = present_fields (ListOptions_fields o).
Proof. destruct o as [[pg|] [lm|] [se|] [st|] [sb|] [so|]]; reflexivity. Qed.

Lemma CallListOptions_dump_keys o :
  Dict.keys (CallListOptions_model_dump o)
  = present_fields (CallListOptions_fields o).
Proof.
  destruct o as [[pg|] [lm|] [se|] [st|] [sb|] [so|] [ag|] [fr|] [to|]];
    reflexivity.
Qed.

(** [create_call] adds the wire name and leaves the internal one in. *)
Lemma create_call_data_keys o :
  Dict.keys (create_call_data o)
  = (present_fields (CallOptions_fields o)
     ++ match CallOptions.from_ o with
        | Some f => if PyStr.truthy f then ["from"] else []
        | None => []
        end)%list.
Proof.
  unfold create_call_data.
  destruct o as [a t [f|] d [m|] [r|] [tr|]]; cbn [CallOptions.from_];
    try destruct (PyStr.truthy f); reflexivity.
Qed.

(** [list_calls] moves the value from the internal name to the wire
    name. *)
Lemma list_calls_params_keys o :
  let opts := match o with None => CallListOptions.default | Some x => x end in
  Dict.keys (list_calls_params o)
  = (present_fields
       (filter (fun f => negb (String.eqb (fst f) "from_"))
          (CallListOptions_fields opts))
     ++ if present (CallListOptions.from_ opts) then ["from"] else [])%list.
Proof.
  destruct o as [[[pg|] [lm|] [se|] [st|] [sb|] [so|] [ag|] [fr|] [to|]]|];
    reflexivity.
Qed.

Lemma list_calls_params_from o f :
  CallListOptions.from_ o = Some f ->
  Dict.get "from" (list_calls_params (Some o)) = Some (JStr f)
  /\ Dict.contains "from_" (list_calls_params (Some o)) = false.
Proof.
  destruct o as [[pg|] [lm|] [se|] [st|] [sb|] [so|] [ag|] [fr|] [to|]];
    cbn [CallListOptions.from_]; intros E; try discriminate E;
    injection E as ->; split; reflexivity.
Qed.

Lemma create_call_data_from_ o f :
  CallOptions.from_ o = Some f ->
  Dict.get "from_" (create_call_data o) = Some (JStr f).
Proof.
  unfold create_call_data.
  destruct o as [a t [fr|] d [m|] [r|] [tr|]]; cbn [CallOptions.from_];
    intros E; try discriminate E; injection E as ->;
    destruct (PyStr.truthy f); reflexivity.
Qed.

(* ===================================================================== *)
(** * The wire name of the [from] field *)
(* ===================================================================== *)

(** C1, where the code departs from it.  For every [CallOptions] whose
    [from_] field is set, the body [create_call] sends still carries the
    field under its internal name "from_" ([list_calls], by contrast,
    sends "from" and no "from_"). *)
Theorem create_call_body_keeps_internal_name :
  forall self (options : CallOptions.t) (f : string) (w : World),
    CallOptions.from_ options = Some f ->
    exists req body,
      sent (snd (create_call self options w)) = (sent w ++ [req])%list
      /\ json_kw req = Some body
      /\ Dict.get "from_" body = Some (JStr f)
      /\ Dict.contains "from_" body = true.
Proof.
  intros self options f w Hf. rewrite create_call_world.
  eexists. exists (create_call_data options).
  split; [reflexivity|]. split; [reflexivity|].
  unfold Dict.contains. rewrite (create_call_data_from_ _ Hf). auto.
Qed.

Lemma create_call_body_keeps_internal_name_witness :
  CallOptions.from_ Sample.call_options = Some "+911234567890"
  /\ exists req body,
      sent (snd (create_call Sample.client Sample.call_options Sample.offline))
      = (sent Sample.offline ++ [req])%list
      /\ json_kw req = Some body
      /\ Dict.get "from_" body = Some (JStr "+911234567890")
      /\ Dict.contains "from_" body = true.
Proof.
  split; [reflexivity|].
  apply (@create_call_body_keeps_internal_name Sample.client Sample.call_options
           "+911234567890" Sample.offline).
  reflexivity.
Defined.

Example create_call_sample_keys :
  Dict.keys (create_call_data Sample.call_options)
  = ["agent_id"; "to"; "from_"; "direction"; "recording"; "transcription"; "from"].
Proof. reflexivity. Qed.

(* ===================================================================== *)
(** * Default query parameters *)
(* ===================================================================== *)

(** C2, as stated, fails: with no options the query of [list_agents]
    also carries "sort_order", whose default is "desc". *)
Lemma list_agents_default_query_has_sort_order :
  exists req params,
    sent (snd (list_agents Sample.client None Sample.offline)) = [req]
    /\ params_kw req = Some params
    /\ Dict.get "sort_order" params = Some (JStr "desc")
    /\ ~ (forall k, In k (Dict.keys params) <-> k = "page" \/ k = "limit").
Proof.
  eexists. eexists. split; [reflexivity|]. split; [reflexivity|].
  split; [reflexivity|]. intros H.
  destruct (proj1 (H "sort_order")) as [E|E]; [|discriminate E|discriminate E].
  simpl. tauto.
Qed.

(** C2, amended.  With no options, the query [list_agents] and
    [list_calls] send holds exactly the three keys "page", "limit" and
    "sort_order", with the defaults 1, 50 and "desc". *)
Theorem list_default_query :
  forall self (w : World),
    sent (snd (list_agents self None w))
    = (sent w ++ [issue self "GET" "/v1/agents" None
                    (Some [("page", JInt 1); ("limit", JInt 50);
                           ("sort_order", JStr "desc")])])%list
    /\ sent (snd (list_calls self None w))
       = (sent w ++ [issue self "GET" "/v1/calls" None
                       (Some [("page", JInt 1); ("limit", JInt 50);
                              ("sort_order", JStr "desc")])])%list
    /\ Dict.keys (ListOptions_model_dump ListOptions.default)
       = ["page"; "limit"; "sort_order"]
    /\ Dict.keys (list_calls_params None) = ["page"; "limit"; "sort_order"].
Proof.
  intros self w. rewrite list_agents_world, list_calls_world.
  repeat split; reflexivity.
Qed.

(* ===================================================================== *)
(** * Omission of absent fields *)
(* ===================================================================== *)

(** C6.  The body of [create_agent] and of [create_call] and the query of
    [list_agents] and of [list_calls] hold no key whose value is the
    absent value, and hold no key at all for a field that is absent:
    their keys are the names of the fields that hold a value. *)
Theorem encoder_omits_absent_fields {pydantic : Validate.conversions} :
  (forall self (config : AgentConfig.t) (w : World),
     let body := AgentConfig_model_dump config in
     sent (snd (create_agent self config w))
     = (sent w ++ [issue self "POST" "/v1/agents" (Some body) None])%list
     /\ no_absent_value body
     /\ Dict.keys body = present_fields (AgentConfig_fields config))
  /\ (forall self (options : CallOptions.t) (w : World),
        let body := create_call_data options in
        sent (snd (create_call self options w))
        = (sent w ++ [issue self "POST" "/v1/calls" (Some body) None])%list
        /\ no_absent_value body
        /\ Dict.keys body
           = (present_fields (CallOptions_fields options)
              ++ match CallOptions.from_ options with
                 | Some f => if PyStr.truthy f then ["from"] else []
                 | None => []
                 end)%list)
  /\ (forall self (options : option ListOptions.t) (w : World),
        let opts := match options with
                    | None => ListOptions.default
                    | Some o => o
                    end in
        let query := ListOptions_model_dump opts in
        sent (snd (list_agents self options w))
        = (sent w ++ [issue self "GET" "/v1/agents" None (Some query)])%list
        /\ no_absent_value query
        /\ Dict.keys query = present_fields (ListOptions_fields opts))
  /\ (forall self (options : option CallListOptions.t) (w : World),
        let opts := match options with
                    | None => CallListOptions.default
                    | Some o => o
                    end in
        let query := list_calls_params options in
        sent (snd (list_calls self options w))
        = (sent w ++ [issue self "GET" "/v1/calls" None (Some query)])%list
        /\ no_absent_value query
        /\ Dict.keys query
           = (present_fields
                (filter (fun f => negb (String.eqb (fst f) "from_"))
                   (CallListOptions_fields opts))
              ++ if present (CallListOptions.from_ opts) then ["from"] else [])%list).
Proof.
  repeat split.
  - rewrite create_agent_world. reflexivity.
  - apply AgentConfig_dump_no_absent.
  - apply AgentConfig_dump_keys.
  - rewrite create_call_world. reflexivity.
  - apply create_call_data_no_absent.
  - apply create_call_data_keys.
  - rewrite list_agents_world. reflexivity.
  - apply ListOptions_dump_no_absent.
  - apply ListOptions_dump_keys.
  - rewrite list_calls_world. reflexivity.
  - apply list_calls_params_no_absent.
  - apply list_calls_params_keys.
Qed.

(* ===================================================================== *)
(** * Batch helpers *)
(* ===================================================================== *)

Section Batch.

Context {A B : Type}.
Variable f : A -> M B.
Variable request : A -> Request.
Hypothesis f_issues : forall x w, snd (f x w) = after w (request x).

Lemma runs_length items : forall w results w',
  runs f items w results w' -> length results = length items.
Proof. induction 1; simpl; congruence. Qed.

(** A run issues the request of each item, in order, and nothing else. *)
Lemma runs_sent items : forall w results w',
  runs f items w results w' ->
  sent w' = (sent w ++ map request items)%list /\ remote w' = remote w.
Proof.
  induction 1 as [w | x rest w b w1 results w' Hx Hrun [IH1 IH2]]; simpl.
  - rewrite app_nil_r. auto.
  - pose proof (f_issues x w) as E. rewrite Hx in E. simpl in E. subst w1.
    simpl in IH1, IH2. rewrite IH1, IH2, <- app_assoc. auto.
Qed.

(** The loop with results already gathered in [acc]. *)
Lemma for_append_completed items : forall w results w',
  runs f items w results w' ->
  forall acc, for_append f items acc w = (Ok (acc ++ results)%list, w').
Proof.
  induction 1 as [w | x rest w b w1 results w' Hx Hrun IH]; intros; simpl.
  - rewrite app_nil_r. reflexivity.
  - unfold bind. rewrite Hx.
    specialize (IH (acc ++ [b])%list).
    rewrite <- app_assoc in IH. exact IH.
Qed.

Lemma for_append_aborted before : forall x rest w results w1 e w2 acc,
  runs f before w results w1 ->
  f x w1 = (Raise e, w2) ->
  for_append f (before ++ x :: rest) acc w = (Raise e, w2).
Proof.
  induction before as [|y before IH]; intros x rest w results w1 e w2 acc Hrun Hx.
  - inversion Hrun; subst. simpl. unfold bind. rewrite Hx. reflexivity.
  - inversion Hrun as [|? ? ? b wy results' ? Hy Hrun']; subst.
    simpl. unfold bind. rewrite Hy. eapply IH; eassumption.
Qed.

(** What an aborted batch has issued: the requests of the items up
    to and including the one that raised. *)
Lemma aborted_sent before x w results w1 e w2 :
  runs f before w results w1 ->
  f x w1 = (Raise e, w2) ->
  sent w2 = (sent w ++ map request (before ++ [x]))%list.
Proof.
  intros Hrun Hx. destruct (runs_sent Hrun) as [Hsent _].
  pose proof (f_issues x w1) as E. rewrite Hx in E. simpl in E. subst w2.
  simpl. rewrite Hsent, map_app, app_assoc. reflexivity.
Qed.

(** Every batch ends in one of the two ways. *)
Lemma for_append_outcome items : forall w,
  batch_outcome f request items w (for_append f items [] w).
Proof.
  assert (Hsplit : forall w,
    (exists results w', runs f items w results w')
    \/ (exists before x rest results w1 e w2,
          items = (before ++ x :: rest)%list
          /\ runs f before w results w1 /\ f x w1 = (Raise e, w2))).
  { induction items as [|x rest IH]; intros w.
    - left. exists [], w. constructor.
    - destruct (f x w) as [[b|e] w1] eqn:Hx.
      + destruct (IH w1) as [(results & w' & Hrun)
                            | (before & y & rest' & results & w2 & e & w3
                               & -> & Hrun & Hy)].
        * left. exists (b :: results), w'. econstructor; eassumption.
        * right. exists (x :: before), y, rest', (b :: results), w2, e, w3.
          repeat split; [|exact Hy]. econstructor; eassumption.
      + right. exists [], x, rest, [], w, e, w1.
        repeat split; [constructor | exact Hx]. }
  intros w.
  destruct (Hsplit w) as [(results & w' & Hrun)
                         | (before & x & rest & results & w1 & e & w2
                            & E & Hrun & Hx)].
  - rewrite (for_append_completed Hrun []). simpl.
    apply batch_completed;
      [exact Hrun | exact (runs_length Hrun) | exact (proj1 (runs_sent Hrun))].
  - rewrite E at 2. erewrite for_append_aborted; [|eassumption|eassumption].
    eapply batch_aborted; try eassumption.
    eapply aborted_sent; eassumption.
Qed.

(** Whatever its outcome, a batch issues the requests of a prefix of
    its items and nothing else. *)
Lemma for_append_sent items w :
  exists issued rest,
    items = (issued ++ rest)%list
    /\ sent (snd (for_append f items [] w))
       = (sent w ++ map request issued)%list.
Proof.
  destruct (for_append_outcome items w)
    as [results w' _ _ Hsent | before x rest results w1 e w2 E _ _ Hsent].
  - exists items, []. rewrite app_nil_r. auto.
  - exists (before ++ [x])%list, rest. rewrite <- app_assoc. auto.
Qed.

End Batch.

(** C7.  [create_multiple_agents] and [create_multiple_calls] call the
    per-item operation on the items one after the other, in list order.
    When every call succeeds the list returned holds one result per item,
    in order.  When the call on an item raises, the batch raises that
    exception at once and returns no list; the requests issued are those
    of the items up to that one and none for the items after it, and no
    request undoes the creations that succeeded. *)
Theorem create_multiple_sequential {pydantic : Validate.conversions} :
  forall self,
    (forall (configs : list AgentConfig.t) (w : World),
       batch_outcome (create_agent self) (create_agent_request self) configs w
         (create_multiple_agents self configs w))
    /\ (forall (call_options : list CallOptions.t) (w : World),
          batch_outcome (create_call self) (create_call_request self)
            call_options w (create_multiple_calls self call_options w)).
Proof.
  intros self. split; intros items w.
  - apply for_append_outcome. intros x w'. apply create_agent_world.
  - apply for_append_outcome. intros x w'. apply create_call_world.
Qed.

(** A batch of three against a service that fails from the second
    request on: two requests are issued and the failure is raised. *)
Example create_multiple_agents_aborts :
  exists r,
    create_multiple_agents (pydantic := Sample.pydantic) Sample.client
      [Sample.config; Sample.config_no_locale; Sample.config]
      Sample.failing_after_one
    = (Raise (HTTPError 500 r),
       {| remote := remote Sample.failing_after_one;
          sent := [create_agent_request Sample.client Sample.config;
                   create_agent_request Sample.client Sample.config_no_locale] |}).
Proof. eexists. reflexivity. Qed.

(* ===================================================================== *)
(** * Round trip of an agent configuration *)
(* ===================================================================== *)

Lemma each_dicts (l : list dict) : forall i,
  Validate.each Validate.dict_any i (map JDict l) = Validate.Valid l.
Proof.
  induction l as [|d l IH]; intros i; simpl; [reflexivity|].
  rewrite IH. reflexivity.
Qed.

(** Decoding an encoded configuration never fails; it yields the
    configuration with its defaults filled in. *)
Lemma validate_AgentConfig_dump {pydantic : Validate.conversions}
      (c : AgentConfig.t) :
  validate_AgentConfig (AgentConfig_model_dump c)
  = Validate.Valid (AgentConfig_with_defaults c).
Proof.
  destruct c as [n p [v|] [l|] [t|] [m|] [mt|] [sp|] [tl|] [md|]];
    unfold validate_AgentConfig, Validate.required, Validate.optional,
      Validate.list_of, JDicts;
    cbn; rewrite ?each_dicts; reflexivity.
Qed.

Lemma with_defaults_id (c : AgentConfig.t) :
  AgentConfig.locale c <> None ->
  AgentConfig.temperature c <> None ->
  AgentConfig.model c <> None ->
  AgentConfig.max_tokens c <> None ->
  AgentConfig_with_defaults c = c.
Proof.
  destruct c as [n p v [l|] [t|] [m|] [mt|] sp tl md]; simpl;
    intros; try congruence; reflexivity.
Qed.

(** A validated record was built from valid fields. *)
Lemma ap_valid {A B : Type} (f : Validate.res (A -> B)) (x : Validate.res A) b :
  f <*> x = Validate.Valid b ->
  exists g a, f = Validate.Valid g /\ x = Validate.Valid a /\ b = g a.
Proof.
  destruct f as [g|e1], x as [a|e2]; simpl; try discriminate.
  intros E. injection E as <-. eauto.
Qed.

Lemma validate_Agent_config {pydantic : Validate.conversions}
      (payload : dict) (a : Agent.t) :
  validate_Agent payload = Validate.Valid a ->
  Validate.required "config" AgentConfig_validator payload
  = Validate.Valid (Agent.config a).
Proof.
  unfold validate_Agent. intros H.
  repeat match type of H with
         | _ <*> _ = Validate.Valid _ =>
             let g := fresh "g" in let x := fresh "x" in
             let Hx := fresh "Hx" in
             apply ap_valid in H as (g & x & H & Hx & ->)
         end.
  injection H as <-. simpl. congruence.
Qed.

(** Whatever pydantic converts, a configuration built with [locale=None]
    is encoded without "locale" and comes back with the default. *)
Lemma locale_none_comes_back_default {pydantic : Validate.conversions} :
  exists a,
    validate_Agent
      (Sample.agent_payload (AgentConfig_model_dump Sample.config_no_locale))
    = Validate.Valid a
    /\ AgentConfig.locale Sample.config_no_locale = None
    /\ AgentConfig.locale (Agent.config a) = Some "en-IN"
    /\ Agent.config a <> Sample.config_no_locale.
Proof.
  eexists. split; [reflexivity|]. repeat split. discriminate.
Qed.

(** C8, as stated, fails: a configuration built with [locale=None] is
    encoded without "locale" and comes back with the default "en-IN". *)
Lemma agent_config_round_trip_loses_none :
  exists a,
    validate_Agent (pydantic := Sample.pydantic)
      (Sample.agent_payload (AgentConfig_model_dump Sample.config_no_locale))
    = Validate.Valid a
    /\ AgentConfig.locale Sample.config_no_locale = None
    /\ AgentConfig.locale (Agent.config a) = Some "en-IN"
    /\ Agent.config a <> Sample.config_no_locale.
Proof. exact (locale_none_comes_back_default (pydantic := Sample.pydantic)). Qed.

(** C8, amended.  Encoding a configuration as [create_agent] does and
    decoding an [Agent] payload whose "config" is that encoded mapping
    yields an agent whose configuration is the original with each absent
    field among locale, temperature, model and max_tokens holding its
    default; it equals the original field for field when none of these
    four is absent.  Such a payload exists for every configuration. *)
Theorem agent_config_round_trip {pydantic : Validate.conversions} :
  forall (c : AgentConfig.t),
    (forall (payload : dict) (a : Agent.t),
       Dict.get "config" payload = Some (JDict (AgentConfig_model_dump c)) ->
       validate_Agent payload = Validate.Valid a ->
       Agent.config a = AgentConfig_with_defaults c
       /\ (AgentConfig.locale c <> None ->
           AgentConfig.temperature c <> None ->
           AgentConfig.model c <> None ->
           AgentConfig.max_tokens c <> None ->
           Agent.config a = c))
    /\ exists a,
         validate_Agent (Sample.agent_payload (AgentConfig_model_dump c))
         = Validate.Valid a.
Proof.
  intros c. split.
  - intros payload a Hget Ha.
    apply validate_Agent_config in Ha. unfold Validate.required in Ha.
    rewrite Hget in Ha. cbn [AgentConfig_validator] in Ha.
    rewrite validate_AgentConfig_dump in Ha. simpl in Ha.
    injection Ha as Ha. split; [symmetry; exact Ha|].
    intros. rewrite <- Ha. apply with_defaults_id; assumption.
  - unfold validate_Agent, Sample.agent_payload.
    cbn [Validate.required Dict.get String.eqb Ascii.eqb Bool.eqb].
    cbn [AgentConfig_validator]. rewrite validate_AgentConfig_dump.
    eexists. reflexivity.
Qed.

Lemma agent_config_round_trip_witness :
  exists a,
    validate_Agent (pydantic := Sample.pydantic)
      (Sample.agent_payload (AgentConfig_model_dump Sample.config))
    = Validate.Valid a
    /\ Agent.config a = Sample.config.
Proof.
  destruct (agent_config_round_trip (pydantic := Sample.pydantic) Sample.config)
    as [Hround _].
  eexists. split; [reflexivity|].
  refine (proj2 (Hround (Sample.agent_payload
                           (AgentConfig_model_dump Sample.config))
                        _ eq_refl eq_refl) _ _ _ _);
    discriminate.
Defined.

(* ===================================================================== *)
(** * Transport failures and validation failures *)
(* ===================================================================== *)

Lemma request_of_headers self i :
  headers (request_of self i) = InvortoClient.session_headers self.
Proof. unfold request_of. destruct i; reflexivity. Qed.

Lemma session_request_of self i w :
  session_request self (method (request_of self i)) (url (request_of self i))
    (json_kw (request_of self i)) (params_kw (request_of self i)) w
  = (match remote w (sent w ++ [request_of self i])%list with
     | Reply r => Ok r
     | Unreachable => Raise ConnectionError
     | Failure e => Raise (RequestException e)
     end, after w (request_of self i)).
Proof.
  unfold session_request, after. cbv zeta.
  rewrite <- (request_of_headers self i).
  destruct (request_of self i) as [m u h j p]. cbn [method url headers json_kw params_kw].
  destruct (remote w _); reflexivity.
Qed.

Lemma error_status_test (status : Z) :
  ((400 <=? status) && (status <? 600))%Z = true <-> error_status status.
Proof. unfold error_status. lia. Qed.

(** The outcome of an operation whose request is answered. *)
Lemma blocking_answered {pydantic : Validate.conversions} self i w r :
  remote w (sent w ++ [request_of self i])%list = Reply r ->
  fst (blocking self i w)
  = if ((400 <=? status_code r) && (status_code r <? 600))%Z
    then Raise (HTTPError (status_code r) r)
    else fst (handle i r (after w (request_of self i))).
Proof.
  intros H. rewrite blocking_run. unfold bind at 1.
  rewrite session_request_of, H. unfold bind, raise_for_status.
  destruct ((400 <=? status_code r) && (status_code r <? 600))%Z; [reflexivity|].
  unfold ret. destruct (handle i r _) as [[a|e] w']; reflexivity.
Qed.

Lemma no_transport_bind {A B : Type} (m : M A) (f : A -> M B) :
  no_transport_exception m -> (forall a, no_transport_exception (f a)) ->
  no_transport_exception (bind m f).
Proof.
  intros Hm Hf w e. unfold bind. specialize (Hm w).
  destruct (m w) as [[a|e'] w']; simpl in *; [apply Hf|].
  intros E. apply Hm. injection E as ->. reflexivity.
Qed.

Lemma no_transport_ret {A : Type} (a : A) : no_transport_exception (ret a).
Proof. intros w e. discriminate. Qed.

Lemma no_transport_returning {A : Type} (inj : A -> value) (m : M A) :
  no_transport_exception m -> no_transport_exception (returning inj m).
Proof.
  intros H. apply no_transport_bind; [exact H | intros; apply no_transport_ret].
Qed.

Ltac raised_while_decoding :=
  let E := fresh "E" in
  intros E; first [ discriminate E | injection E as <-; reflexivity ].

Lemma no_transport_response_json r : no_transport_exception (response_json r).
Proof.
  intros w e. unfold response_json.
  destruct (json_ r); raised_while_decoding.
Qed.

Lemma no_transport_construct {A : Type} (validate : dict -> Validate.res A)
      data :
  no_transport_exception (construct validate data).
Proof.
  intros w e. unfold construct.
  destruct data; try raised_while_decoding.
  destruct (validate d); raised_while_decoding.
Qed.

Lemma no_transport_construct_events events :
  no_transport_exception (construct_events events).
Proof.
  induction events as [|e es IH]; simpl; [apply no_transport_ret|].
  apply no_transport_bind; [apply no_transport_construct|]. intros a.
  apply no_transport_bind; [exact IH | intros; apply no_transport_ret].
Qed.

Lemma no_transport_timeline_events data :
  no_transport_exception (timeline_events data).
Proof.
  destruct data; try (intros w e; raised_while_decoding).
  unfold timeline_events. apply no_transport_bind.
  - intros w e. unfold iterate.
    destruct (match Dict.get "timeline" d with
              | Some v => v | None => JList [] end); raised_while_decoding.
  - intros; apply no_transport_construct_events.
Qed.

(** Handling an answer raises no exception of the transport. *)
Lemma no_transport_handle {pydantic : Validate.conversions} i r :
  no_transport_exception (handle i r).
Proof.
  destruct i; cbn [handle];
    repeat first
      [ apply no_transport_ret
      | apply no_transport_response_json
      | apply no_transport_construct
      | apply no_transport_timeline_events
      | apply no_transport_returning
      | apply no_transport_bind; [|intros] ].
Qed.

Lemma no_http_handle {pydantic : Validate.conversions} i r w status response :
  fst (handle i r w) <> Raise (HTTPError status response).
Proof.
  intros E. apply no_transport_handle in E. discriminate E.
Qed.

(** An operation that decodes one entity raises the validation error on
    a mapping its schema rejects. *)
Lemma handle_rejects {pydantic : Validate.conversions} i r w schema d locs :
  entity_schema i = Some schema ->
  json_ r = Some (JDict d) ->
  schema d = Validate.Invalid locs ->
  fst (handle i r w) = Raise (ValidationError locs).
Proof.
  intros Hs Hj Hd.
  destruct i; cbn [entity_schema] in Hs; try discriminate Hs;
    injection Hs as <-; cbn [handle];
    unfold bind, returning, response_json, construct, bind; rewrite Hj;
    cbn [ret fst]; cbv beta in Hd;
    match type of Hd with
    | match ?v with _ => _ end = _ => destruct v as [a|e]
    end; try discriminate Hd; injection Hd as ->; reflexivity.
Qed.

(** Whatever pydantic converts, a 304 answer with the body of an agent
    passes the status check and the agent is returned; one without a
    body passes it too and fails in the decoding of the body. *)
Lemma not_modified_returns_the_agent {pydantic : Validate.conversions} :
  WireSpec.success_status (status_code Sample.not_modified) = false
  /\ (exists a,
        fst (get_agent Sample.client "agent-1"
               (Sample.answering Sample.not_modified)) = Ok a)
  /\ fst (get_agent Sample.client "agent-1"
            (Sample.answering Sample.not_modified_empty))
     = Raise JSONDecodeError.
Proof. split; [reflexivity|]. split; [eexists|]; reflexivity. Qed.

(** C5, as stated, fails: a 304 answer is not a success status, yet
    [raise_for_status] lets it through and the operation returns the
    agent its body describes; when the answer has no body the operation
    raises the JSON decoding error, which is not the transport-level
    error either. *)
Lemma non_success_status_without_error :
  WireSpec.success_status (status_code Sample.not_modified) = false
  /\ (exists a,
        fst (get_agent (pydantic := Sample.pydantic) Sample.client "agent-1"
               (Sample.answering Sample.not_modified)) = Ok a)
  /\ fst (get_agent (pydantic := Sample.pydantic) Sample.client "agent-1"
            (Sample.answering Sample.not_modified_empty))
     = Raise JSONDecodeError.
Proof. exact (not_modified_returns_the_agent (pydantic := Sample.pydantic)). Qed.

(** A body that is JSON but not a mapping cannot be unpacked into the
    keywords of a model: the failure is neither of the two kinds. *)
Example array_body_raises_type_error :
  fst (get_agent (pydantic := Sample.pydantic) Sample.client "agent-1"
         (Sample.answering Sample.array_body))
  = Raise TypeError.
Proof. reflexivity. Qed.

(** A number given in the other kind is no validation failure where
    pydantic converts it: a cost given as the integer 5 comes back as the
    float 5.0, and one given as a string, which the sample pydantic does
    not convert, is rejected. *)
Example get_call_converts_cost :
  (exists c,
     fst (get_call (pydantic := Sample.pydantic) Sample.client "call-1"
            (Sample.answering (Sample.call_response (JInt 5)))) = Ok c
     /\ Call.cost_inr c = Some (S754_finite false 5629499534213120 (-50)))
  /\ fst (get_call (pydantic := Sample.pydantic) Sample.client "call-1"
            (Sample.answering (Sample.call_response (JStr "five"))))
     = Raise (ValidationError [[Validate.Key "cost_inr"]]).
Proof. split; [eexists; split; reflexivity | reflexivity]. Qed.

(** C5, amended.  For every single-request operation and every answer
    of the service: a status from 400 to 599 always raises the
    transport-level error carrying that status, and so never the
    validation error; any other status never raises the transport-level
    error; and in an operation that decodes one entity, an answer with
    such a status whose body is a JSON mapping the entity schema rejects
    raises the validation error.  The two failures exclude each other. *)
Theorem transport_and_validation_errors {pydantic : Validate.conversions} :
  forall self (i : invocation) (w : World) (r : Response),
    remote w (sent (snd (blocking self i w))) = Reply r ->
    (error_status (status_code r) ->
     fst (blocking self i w) = Raise (HTTPError (status_code r) r))
    /\ (~ error_status (status_code r) ->
        forall status response,
          fst (blocking self i w) <> Raise (HTTPError status response))
    /\ (~ error_status (status_code r) ->
        forall schema d locs,
          entity_schema i = Some schema ->
          json_ r = Some (JDict d) ->
          schema d = Validate.Invalid locs ->
          fst (blocking self i w) = Raise (ValidationError locs))
    /\ (forall locs,
          fst (blocking self i w) = Raise (ValidationError locs) ->
          ~ error_status (status_code r)).
Proof.
  intros self i w r H. rewrite blocking_world in H. cbn [after sent] in H.
  rewrite (blocking_answered _ _ _ H).
  destruct ((400 <=? status_code r) && (status_code r <? 600))%Z eqn:E.
  - apply error_status_test in E. repeat split; try tauto. discriminate.
  - assert (Hn : ~ error_status (status_code r)).
    { intros Hs. apply error_status_test in Hs. congruence. }
    repeat split; try tauto.
    + intros _. apply no_http_handle.
    + intros _ schema d locs. apply handle_rejects.
Qed.

Lemma transport_and_validation_errors_witness :
  fst (blocking (pydantic := Sample.pydantic) Sample.client (Get_agent "agent-1")
         (Sample.answering Sample.not_found))
  = Raise (HTTPError 404 Sample.not_found)
  /\ fst (blocking (pydantic := Sample.pydantic) Sample.client (Get_agent "agent-1")
            (Sample.answering Sample.empty_object))
     = Raise (ValidationError
                (map (fun k => [Validate.Key k])
                   ["id"; "name"; "config"; "status"; "tenant_id";
                    "created_at"; "updated_at"])).
Proof.
  split.
  - refine (proj1 (@transport_and_validation_errors Sample.pydantic Sample.client
                     (Get_agent "agent-1") (Sample.answering Sample.not_found)
                     Sample.not_found eq_refl) _).
    unfold error_status. simpl. lia.
  - refine (proj1 (proj2 (proj2
              (@transport_and_validation_errors Sample.pydantic Sample.client
                 (Get_agent "agent-1") (Sample.answering Sample.empty_object)
                 Sample.empty_object eq_refl)))
              _ _ [] _ eq_refl eq_refl eq_refl).
    unfold error_status. simpl. lia.
Defined.

(* ===================================================================== *)
(** * The non-blocking adapter *)
(* ===================================================================== *)

(** Each coroutine hands the blocking method of the same name, with the
    same arguments, to the executor. *)
Lemma nonblocking_dispatch {pydantic : Validate.conversions} self i :
  nonblocking self i = run_in_executor (blocking self i).
Proof. destruct i; reflexivity. Qed.

Lemma lookup_fresh (l : list (nat * Result value)) fut :
  (forall f r, In (f, r) l -> f < fut) -> Loop.lookup fut l = None.
Proof.
  induction l as [|[f r] l IH]; intros H; simpl; [reflexivity|].
  destruct (Nat.eqb_spec f fut) as [->|_].
  - specialize (H fut r (or_introl eq_refl)). lia.
  - apply IH. intros f' r' Hin. apply (H f' r'). right. exact Hin.
Qed.

Lemma singleton_split {T : Type} (before after : list T) (x y : T) :
  (before ++ x :: after)%list = [y] -> before = [] /\ x = y /\ after = [].
Proof.
  destruct before as [|b before]; simpl; intros E.
  - injection E as -> ->. auto.
  - injection E as _ E. destruct before; discriminate E.
Qed.

Lemma no_step_when_empty w l st :
  Loop.queue l = [] -> ~ worker_step (w, l) st.
Proof.
  intros Hq Hstep. inversion Hstep as [? ? before fut call after ? ? Hqueue]; subst.
  rewrite Hq in Hqueue. destruct before; discriminate Hqueue.
Qed.

(** With no other call waiting and none handed over meanwhile, awaiting a
    call handed to the executor has one outcome: that of the call
    itself. *)
Lemma await_alone (call : M value) w l r st' :
  Loop.idle l ->
  (completes_undisturbed (run_in_executor call) (w, l) r st'
   <-> r = fst (call w) /\ st' = resolved_alone call w l).
Proof.
  intros [Hq Hfresh].
  unfold completes_undisturbed, awaits_undisturbed, run_in_executor.
  cbn [fst snd]. rewrite Hq. cbn [app]. split.
  - intros [Hsteps Hlook].
    inversion Hsteps as [st | st1 st2 st3 Hstep Hrest]; subst.
    + cbn [snd Loop.resolved] in Hlook.
      rewrite (lookup_fresh _ Hfresh) in Hlook. discriminate Hlook.
    + inversion Hstep as [? ? before fut c after r0 w' Hqueue Hcall]; subst.
      cbn [Loop.queue] in Hqueue. symmetry in Hqueue.
      apply singleton_split in Hqueue as (-> & E & ->).
      injection E as -> ->. cbn [app Loop.resolved Loop.next_future] in *.
      inversion Hrest as [st | st1 st2 st3 Hstep' _]; subst.
      * cbn [snd Loop.resolved Loop.lookup] in Hlook.
        rewrite Nat.eqb_refl in Hlook. injection Hlook as <-.
        unfold resolved_alone. rewrite Hcall. auto.
      * exfalso. eapply no_step_when_empty; [|exact Hstep']. reflexivity.
  - intros [-> ->]. unfold resolved_alone. split.
    + eapply steps_more; [|apply steps_none].
      destruct (call w) as [r0 w'] eqn:Hcall.
      apply (@worker_runs w
               {| Loop.queue := [(Loop.next_future l, call)];
                  Loop.resolved := Loop.resolved l;
                  Loop.next_future := S (Loop.next_future l) |}
               [] (Loop.next_future l) call [] r0 w'); [reflexivity | exact Hcall].
    + cbn [snd Loop.resolved Loop.lookup]. rewrite Nat.eqb_refl. reflexivity.
Qed.

(** ** Futures keep their identity *)

Lemma well_formed_empty : Loop.well_formed Loop.empty.
Proof. split; intros f x H; destruct H. Qed.

Lemma well_formed_dispatch (call : M value) w l :
  Loop.well_formed l ->
  Loop.well_formed (snd (snd (run_in_executor call (w, l)))).
Proof.
  intros [Hq Hr]. split; cbn [run_in_executor snd Loop.queue Loop.resolved
                              Loop.next_future].
  - intros f c Hin. apply in_app_or in Hin as [Hin | [E | []]].
    + specialize (Hq f c Hin). lia.
    + injection E as <- _. lia.
  - intros f r Hin. specialize (Hr f r Hin). lia.
Qed.

Lemma well_formed_worker st st' :
  worker_step st st' -> Loop.well_formed (snd st) -> Loop.well_formed (snd st').
Proof.
  intros Hstep [Hq Hr].
  inversion Hstep as [w l before fut call after r w' Hqueue Hcall]; subst.
  cbn [snd] in *. split; cbn [Loop.queue Loop.resolved Loop.next_future].
  - intros f c Hin. apply (Hq f c). rewrite Hqueue.
    apply in_app_or in Hin as [Hin | Hin]; apply in_or_app; [left | right; right];
      exact Hin.
  - intros f r0 [E | Hin]; [|exact (Hr f r0 Hin)].
    injection E as <- _. apply (Hq fut call). rewrite Hqueue.
    apply in_or_app. right. left. reflexivity.
Qed.

Lemma well_formed_step st st' :
  loop_step st st' -> Loop.well_formed (snd st) -> Loop.well_formed (snd st').
Proof.
  intros Hstep. destruct Hstep as [st1 st2 Hstep | call [w l]];
    [apply (well_formed_worker Hstep) | apply well_formed_dispatch].
Qed.

(** Every loop a program can reach is well formed. *)
Lemma reachable_well_formed st : reachable st -> Loop.well_formed (snd st).
Proof.
  induction 1 as [w | st st' _ IH Hstep]; [apply well_formed_empty|].
  exact (well_formed_step Hstep IH).
Qed.

Lemma waiting_app fut (q1 q2 : list (nat * M value)) :
  Loop.waiting fut (q1 ++ q2)
  = (Loop.waiting fut q1 ++ Loop.waiting fut q2)%list.
Proof. apply filter_app. Qed.

Lemma waiting_fresh fut (q : list (nat * M value)) :
  (forall f c, In (f, c) q -> f < fut) -> Loop.waiting fut q = [].
Proof.
  induction q as [|[f c] q IH]; intros H; [reflexivity|].
  cbn [Loop.waiting filter fst].
  destruct (Nat.eqb_spec f fut) as [->|_].
  - specialize (H fut c (or_introl eq_refl)). lia.
  - apply IH. intros f' c' Hin. apply (H f' c'). right. exact Hin.
Qed.

Lemma waiting_cons fut f c (q : list (nat * M value)) :
  Loop.waiting fut ((f, c) :: q)
  = if Nat.eqb f fut then (f, c) :: Loop.waiting fut q else Loop.waiting fut q.
Proof. reflexivity. Qed.

(** The call just handed over waits under a future of its own. *)
Lemma dispatch_pending (call : M value) w l :
  Loop.well_formed l ->
  pending (fst (run_in_executor call (w, l))) call
    (snd (run_in_executor call (w, l))).
Proof.
  intros [Hq Hr]. unfold pending.
  cbn [run_in_executor fst snd Loop.queue Loop.resolved Loop.next_future].
  rewrite waiting_app, (waiting_fresh _ Hq), waiting_cons, Nat.eqb_refl.
  split; [reflexivity|]. split; [apply lookup_fresh; exact Hr | lia].
Qed.

(** A resolved future keeps its outcome. *)
Lemma settled_step fut r st st' :
  settled fut r st -> loop_step st st' -> settled fut r st'.
Proof.
  intros Hset Hstep. revert Hset.
  destruct Hstep as [st1 st2 Hstep | call [w l]];
    intros (Hwait & Hlook & Hlt).
  - inversion Hstep as [w l before f c after r0 w' Hqueue Hcall]; subst.
    cbn [snd] in *. unfold settled.
    cbn [snd Loop.queue Loop.resolved Loop.next_future Loop.lookup].
    rewrite Hqueue, waiting_app, waiting_cons in Hwait.
    destruct (Nat.eqb f fut) eqn:E.
    + apply app_eq_nil in Hwait as [_ Hwait]. discriminate Hwait.
    + apply app_eq_nil in Hwait as [Hb Ha].
      rewrite waiting_app, Hb, Ha. auto.
  - cbn [snd] in *. unfold settled.
    cbn [run_in_executor snd Loop.queue Loop.resolved Loop.next_future].
    rewrite waiting_app, Hwait, waiting_cons.
    destruct (Nat.eqb_spec (Loop.next_future l) fut) as [E|_]; [lia|].
    split; [reflexivity|]. split; [exact Hlook | lia].
Qed.

Lemma settled_steps fut r st st' :
  loop_steps st st' -> settled fut r st -> settled fut r st'.
Proof.
  induction 1 as [st | st1 st2 st3 Hstep _ IH]; intros H; [exact H|].
  apply IH. exact (settled_step H Hstep).
Qed.

(** A waiting future either keeps waiting or is resolved by a worker
    that runs its call in the world of that moment. *)
Lemma pending_step fut call st st' :
  pending fut call st -> loop_step st st' ->
  pending fut call st'
  \/ (worker_step st st'
      /\ fst st' = snd (call (fst st))
      /\ settled fut (fst (call (fst st))) st').
Proof.
  intros Hpend Hstep. revert Hpend.
  destruct Hstep as [st1 st2 Hstep | other [w l]];
    intros (Hwait & Hlook & Hlt).
  - inversion Hstep as [w l before f c after r0 w' Hqueue Hcall]; subst.
    cbn [snd fst] in *.
    rewrite Hqueue, waiting_app, waiting_cons in Hwait.
    destruct (Nat.eqb_spec f fut) as [->|Hne].
    + right. apply singleton_split in Hwait as (Hb & E & Ha).
      injection E as <-. split; [exact Hstep|].
      rewrite Hcall. split; [reflexivity|]. unfold settled.
      cbn [snd fst Loop.queue Loop.resolved Loop.next_future Loop.lookup].
      rewrite waiting_app, Hb, Ha, Nat.eqb_refl. auto.
    + left. unfold pending.
      cbn [snd Loop.queue Loop.resolved Loop.next_future Loop.lookup].
      rewrite waiting_app.
      destruct (Nat.eqb_spec f fut) as [E|_]; [contradiction|]. auto.
  - left. cbn [snd] in *. unfold pending.
    cbn [run_in_executor snd Loop.queue Loop.resolved Loop.next_future].
    rewrite waiting_app, Hwait, waiting_cons.
    destruct (Nat.eqb_spec (Loop.next_future l) fut) as [E|_]; [lia|].
    split; [reflexivity|]. split; [exact Hlook | lia].
Qed.

(** The outcome of a waiting future is the outcome of its call, run by a
    worker in one step at some moment of the await. *)
Lemma await_any fut (call : M value) st st' r :
  loop_steps st st' ->
  pending fut call st ->
  Loop.lookup fut (Loop.resolved (snd st')) = Some r ->
  exists st0 st1,
    loop_steps st st0
    /\ worker_step st0 st1
    /\ r = fst (call (fst st0))
    /\ fst st1 = snd (call (fst st0))
    /\ loop_steps st1 st'.
Proof.
  induction 1 as [st | st1 st2 st3 Hstep Hrest IH]; intros Hpend Hlook.
  - destruct Hpend as (_ & Hnone & _). congruence.
  - destruct (pending_step Hpend Hstep) as [Hpend' | (Hw & Hworld & Hset)].
    + destruct (IH Hpend' Hlook) as (st0 & st1' & H0 & Hw & Hr & Hworld & H1).
      exists st0, st1'. split; [|auto].
      eapply loop_steps_more; eassumption.
    + exists st1, st2. split; [apply loop_steps_none|]. split; [exact Hw|].
      destruct (settled_steps Hrest Hset) as (_ & Hlook' & _).
      split; [congruence|]. split; [exact Hworld | exact Hrest].
Qed.

(** A call handed over can always be awaited: a worker may run it
    first. *)
Lemma await_exists (call : M value) w l :
  exists st',
    completes (run_in_executor call) (w, l) (fst (call w)) st'
    /\ fst st' = snd (call w).
Proof.
  destruct (call w) as [r w'] eqn:Hcall.
  exists (w', {| Loop.queue := (Loop.queue l ++ [])%list;
                 Loop.resolved := (Loop.next_future l, r) :: Loop.resolved l;
                 Loop.next_future := S (Loop.next_future l) |}).
  split; [|reflexivity]. split.
  - eapply loop_steps_more; [|apply loop_steps_none].
    apply a_worker_runs. cbn [run_in_executor snd].
    apply (@worker_runs w
             {| Loop.queue := (Loop.queue l ++ [(Loop.next_future l, call)])%list;
                Loop.resolved := Loop.resolved l;
                Loop.next_future := S (Loop.next_future l) |}
             (Loop.queue l) (Loop.next_future l) call [] r w');
      [reflexivity | exact Hcall].
  - cbn [run_in_executor fst snd Loop.resolved Loop.lookup].
    rewrite Nat.eqb_refl. reflexivity.
Qed.

(** The public methods are the facade operations and, apart from them,
    the utilities, the batch helpers and [close]. *)
Lemma facade_operations_and_others (m : string) :
  In m InvortoClient_methods <-> In m facade_operations \/ In m other_methods.
Proof.
  unfold InvortoClient_methods, facade_operations, other_methods.
  cbn [In]. tauto.
Qed.

(** The methods that are no facade operation have no coroutine. *)
Lemma other_methods_have_no_mirror (m : string) :
  In m other_methods -> ~ In (m ++ "_async") AsyncInvortoClient_methods.
Proof.
  intros H. simpl in H.
  repeat (destruct H as [<-|H]); try (destruct H);
    simpl; intros H;
    repeat (destruct H as [H|H]; [discriminate H|]); exact H.
Qed.

(** C9.  Every facade operation (a blocking method that maps to one
    call of the wire protocol) has a coroutine named after it with the
    suffix "_async", and the asynchronous client defines no other method.
    Each coroutine hands the blocking call, with the same arguments, to
    the executor.  Whatever else is waiting in the executor and whatever
    the other tasks hand over meanwhile, awaiting the coroutine yields
    exactly the result of the blocking call, or raises the exception the
    blocking call raises: the call is run once, by a worker, against the
    service as it is at that moment, and leaves it as the blocking call
    does.  The await can always complete.  When nothing else is waiting
    and nothing is handed over meanwhile, the result is that of the
    blocking call made in place of the coroutine. *)
Theorem async_mirrors_blocking_call {pydantic : Validate.conversions} :
  (forall i : invocation,
     In (method_name i) facade_operations
     /\ In (method_name i ++ "_async") AsyncInvortoClient_methods)
  /\ (forall m, In m facade_operations -> exists i, m = method_name i)
  /\ (forall m, In m AsyncInvortoClient_methods ->
        exists i, m = method_name i ++ "_async")
  /\ (forall self (i : invocation),
        nonblocking self i = run_in_executor (blocking self i))
  /\ (forall self (i : invocation) (w : World) (l : Loop.t)
             (r : Result value) (st' : AsyncState),
        Loop.well_formed l ->
        completes (nonblocking self i) (w, l) r st' ->
        exists st0 st1,
          loop_steps (snd (nonblocking self i (w, l))) st0
          /\ worker_step st0 st1
          /\ r = fst (blocking self i (fst st0))
          /\ fst st1 = snd (blocking self i (fst st0))
          /\ loop_steps st1 st')
  /\ (forall self (i : invocation) (w : World) (l : Loop.t),
        exists st',
          completes (nonblocking self i) (w, l) (fst (blocking self i w)) st'
          /\ fst st' = snd (blocking self i w))
  /\ (forall st, reachable st -> Loop.well_formed (snd st))
  /\ (forall self (i : invocation) (w : World) (l : Loop.t)
             (r : Result value) (st' : AsyncState),
        Loop.idle l ->
        (completes_undisturbed (nonblocking self i) (w, l) r st'
         <-> r = fst (blocking self i w)
             /\ st' = resolved_alone (blocking self i) w l)).
Proof.
  split; [|split; [|split; [|split; [|split; [|split; [|split]]]]]].
  - intros i. destruct i; simpl; tauto.
  - intros m H. simpl in H.
    pose (c := Sample.config). pose (o := Sample.call_options).
    repeat (destruct H as [<-|H]);
      [ exists (Create_agent c) | exists (Get_agent "")
      | exists (List_agents None) | exists (Update_agent "" [])
      | exists (Delete_agent "") | exists (Create_call o)
      | exists (Get_call "") | exists (List_calls None)
      | exists (Update_call_status "" "" None)
      | exists (Get_call_timeline "")
      | exists (Get_call_artifacts "")
      | exists (Get_tenant_usage "" "")
      | exists (Get_call_analytics "")
      | exists Health_check | exists Get_metrics
      | destruct H ]; reflexivity.
  - intros m H. simpl in H.
    pose (c := Sample.config). pose (o := Sample.call_options).
    repeat (destruct H as [<-|H]);
      [ exists (Create_agent c) | exists (Get_agent "") | exists (List_agents None)
      | exists (Create_call o) | exists (Get_call "") | exists (List_calls None)
      | exists (Update_call_status "" "" None) | exists (Get_call_timeline "")
      | exists (Get_call_artifacts "") | exists (Get_tenant_usage "" "")
      | exists (Get_call_analytics "") | exists (Update_agent "" [])
      | exists (Delete_agent "") | exists Health_check | exists Get_metrics
      | destruct H ]; reflexivity.
  - intros self i. apply nonblocking_dispatch.
  - intros self i w l r st' Hwf. rewrite nonblocking_dispatch.
    intros [Hsteps Hlook].
    exact (await_any Hsteps (dispatch_pending _ w Hwf) Hlook).
  - intros self i w l. rewrite nonblocking_dispatch. apply await_exists.
  - apply reachable_well_formed.
  - intros self i w l r st' Hidle. rewrite nonblocking_dispatch.
    apply await_alone. exact Hidle.
Qed.

Lemma async_mirrors_blocking_call_witness :
  Loop.well_formed Sample.busy
  /\ Loop.queue Sample.busy <> []
  /\ exists st0 st1,
       loop_steps
         (snd (nonblocking (pydantic := Sample.pydantic) Sample.client
                 Health_check (Sample.offline, Sample.busy))) st0
       /\ worker_step st0 st1
       /\ Raise ConnectionError
          = fst (blocking (pydantic := Sample.pydantic) Sample.client
                   Health_check (fst st0)).
Proof.
  assert (Hwf : Loop.well_formed Sample.busy).
  { apply well_formed_dispatch. apply well_formed_empty. }
  split; [exact Hwf|]. split; [discriminate|].
  destruct (@async_mirrors_blocking_call Sample.pydantic)
    as (_ & _ & _ & _ & Hawait & Hexists & _).
  destruct (Hexists Sample.client Health_check Sample.offline Sample.busy)
    as (st' & Hcompletes & _).
  destruct (Hawait Sample.client Health_check Sample.offline Sample.busy
              _ st' Hwf Hcompletes)
    as (st0 & st1 & H0 & Hw & Hr & _).
  exists st0, st1. auto.
Defined.

(* ===================================================================== *)
(** * Request URLs *)
(* ===================================================================== *)

Lemma rstrip_slashes (s : string) :
  exists n, s = PyStr.rstrip "/" s ++ PyStr.repeat_char "/" n.
Proof.
  induction s as [|c s [n IH]]; [exists 0; reflexivity|].
  cbn [PyStr.rstrip]. destruct (PyStr.rstrip "/" s) as [|d r] eqn:E.
  - simpl in IH. simpl. destruct (Ascii.eqb_spec c "/") as [->|_]; simpl.
    + exists (S n). rewrite IH at 1. reflexivity.
    + exists n. rewrite IH at 1. reflexivity.
  - exists n. rewrite IH at 1. reflexivity.
Qed.

Lemma rstrip_no_trailing_slash (s : string) :
  PyStr.ends_with "/" (PyStr.rstrip "/" s) = false.
Proof.
  induction s as [|c s IH]; [reflexivity|].
  cbn [PyStr.rstrip]. destruct (PyStr.rstrip "/" s) as [|d r] eqn:E.
  - simpl. destruct (Ascii.eqb c "/") eqn:Ec; simpl; [reflexivity | exact Ec].
  - exact IH.
Qed.

Lemma endpoint_path (i : invocation) :
  exists rest,
    snd (WireSpec.endpoint i) = "/" ++ rest /\ PyStr.startswith "/" rest = false.
Proof. destruct i; simpl; eexists; split; reflexivity. Qed.

(** C10.  The client stores the base URL it is given without its
    trailing '/' characters, all of them; every operation requests the
    stored base URL followed by the path of the operation, which begins
    with a single '/', so that the two never meet in a double slash; the
    batch helpers request the URL of the creation they repeat. *)
Theorem request_url_is_base_url_and_path {pydantic : Validate.conversions} :
  forall (api_key base_url : string) (tenant_id : option string),
    let self := InvortoClient_init api_key base_url tenant_id in
    InvortoClient.base_url self = PyStr.rstrip "/" base_url
    /\ (exists n, base_url = InvortoClient.base_url self ++ PyStr.repeat_char "/" n)
    /\ PyStr.ends_with "/" (InvortoClient.base_url self) = false
    /\ (forall (i : invocation) (w : World),
          exists req rest,
            sent (snd (blocking self i w)) = (sent w ++ [req])%list
            /\ url req = InvortoClient.base_url self ++ snd (WireSpec.endpoint i)
            /\ snd (WireSpec.endpoint i) = "/" ++ rest
            /\ PyStr.startswith "/" rest = false)
    /\ (forall (configs : list AgentConfig.t) (w : World),
          exists reqs,
            sent (snd (create_multiple_agents self configs w))
            = (sent w ++ reqs)%list
            /\ Forall (fun req =>
                         url req = InvortoClient.base_url self ++ "/v1/agents")
                 reqs)
    /\ (forall (call_options : list CallOptions.t) (w : World),
          exists reqs,
            sent (snd (create_multiple_calls self call_options w))
            = (sent w ++ reqs)%list
            /\ Forall (fun req =>
                         url req = InvortoClient.base_url self ++ "/v1/calls")
                 reqs).
Proof.
  intros api_key base_url tenant_id self.
  split; [reflexivity|]. split; [apply rstrip_slashes|].
  split; [apply rstrip_no_trailing_slash|]. split; [|split].
  - intros i w. destruct (endpoint_path i) as (rest & Hpath & Hrest).
    exists (request_of self i), rest. rewrite blocking_world.
    split; [reflexivity|]. split; [|auto]. unfold request_of.
    destruct i; reflexivity.
  - intros configs w.
    destruct (@for_append_sent _ _ (create_agent self)
                (create_agent_request self)
                (fun x w' => create_agent_world self x w') configs w)
      as (issued & rest & _ & Hsent).
    exists (map (create_agent_request self) issued). split; [exact Hsent|].
    apply Forall_forall. intros req Hin. apply in_map_iff in Hin as (c & <- & _).
    reflexivity.
  - intros call_options w.
    destruct (@for_append_sent _ _ (create_call self)
                (create_call_request self)
                (fun x w' => create_call_world self x w') call_options w)
      as (issued & rest & _ & Hsent).
    exists (map (create_call_request self) issued). split; [exact Hsent|].
    apply Forall_forall. intros req Hin. apply in_map_iff in Hin as (c & <- & _).
    reflexivity.
Qed.

Example request_url_sample :
  InvortoClient.base_url Sample.client = "https://api.invorto.ai"
  /\ map url (sent (snd (get_agent (pydantic := Sample.pydantic) Sample.client
                              "agent-1" Sample.offline)))
     = ["https://api.invorto.ai/v1/agents/agent-1"].
Proof. split; reflexivity. Qed.

(* ********************************************************************* *)
(** * Further properties of the phone-number utilities *)
(* ********************************************************************* *)

Lemma strip_app (a b : ustr) :
  PhoneSpec.strip_separators (a ++ b)
  = (PhoneSpec.strip_separators a ++ PhoneSpec.strip_separators b)%list.
Proof.
  induction a as [|c a IH]; simpl; [reflexivity|].
  destruct (PhoneSpec.is_separator c); simpl; rewrite IH; reflexivity.
Qed.

Lemma strip_separator_free (s : ustr) :
  separator_free s -> PhoneSpec.strip_separators s = s.
Proof.
  unfold separator_free, PhoneSpec.all_chars.
  induction s as [|c s IH]; simpl; [reflexivity|].
  intros H. apply Bool.andb_true_iff in H as [Hc Hs].
  destruct (PhoneSpec.is_separator c); [discriminate Hc|].
  rewrite IH by exact Hs. reflexivity.
Qed.

Lemma strip_idempotent (s : ustr) :
  PhoneSpec.strip_separators (PhoneSpec.strip_separators s)
  = PhoneSpec.strip_separators s.
Proof. apply strip_separator_free. apply strip_no_separator. Qed.

Lemma separator_free_app (a b : ustr) :
  separator_free a -> separator_free b -> separator_free (a ++ b).
Proof.
  unfold separator_free. intros Ha Hb. rewrite all_chars_app, Ha, Hb. reflexivity.
Qed.

Lemma separator_free_drop1 (s : ustr) :
  separator_free s -> separator_free (Unicode.drop1 s).
Proof.
  unfold separator_free, PhoneSpec.all_chars.
  destruct s as [|c s]; simpl; [auto|].
  intros H. apply Bool.andb_true_iff in H as [_ H]. exact H.
Qed.

Lemma validate_by_format (p : ustr) :
  validate_phone_number p = true
  <-> PhoneSpec.international_format (PhoneSpec.strip_separators p).
Proof.
  unfold validate_phone_number. rewrite sub_class_strip.
  apply phone_regex_iff. apply strip_no_separator.
Qed.

Lemma format_by_strip (p cc : ustr) :
  format_phone_number p cc
  = let cleaned := PhoneSpec.strip_separators p in
    if Unicode.startswith (u "+") cleaned then cleaned
    else if Unicode.startswith (u "0") cleaned
         then (cc ++ Unicode.drop1 cleaned)%list
    else if Unicode.startswith (u "91") cleaned && (length cleaned =? 12)
         then (u "+" ++ cleaned)%list
    else if length cleaned =? 10 then (cc ++ cleaned)%list
    else p.
Proof. unfold format_phone_number. rewrite sub_class_strip. reflexivity. Qed.

Lemma startswith_char_iff (c : N) (s : ustr) :
  Unicode.startswith [c] s = true <-> exists rest, s = c :: rest.
Proof.
  destruct s as [|d s]; cbn [Unicode.startswith].
  - split; [discriminate|]. intros [rest E]. discriminate E.
  - rewrite Bool.andb_true_r, N.eqb_eq. split.
    + intros ->. eauto.
    + intros [rest E]. injection E as E _. congruence.
Qed.

Lemma startswith_plus_app (cc rest : ustr) :
  Unicode.startswith (u "+") cc = true ->
  Unicode.startswith (u "+") (cc ++ rest) = true.
Proof.
  intros H. apply startswith_char_iff in H as [tail ->].
  apply startswith_char_iff. simpl. eauto.
Qed.

(** X1.  Separators carry no weight in validation: a whitespace
    character, a hyphen or a parenthesis inserted anywhere in the input
    does not change the verdict. *)
Theorem validate_ignores_separators :
  forall (a b : ustr) (c : N),
    PhoneSpec.is_separator c = true ->
    validate_phone_number (a ++ c :: b) = validate_phone_number (a ++ b).
Proof.
  intros a b c Hc. unfold validate_phone_number.
  rewrite !sub_class_strip, !strip_app. simpl. rewrite Hc. reflexivity.
Qed.

Lemma validate_ignores_separators_witness :
  PhoneSpec.is_separator 45%N = true
  /\ validate_phone_number (u "98765" ++ 45%N :: u "43210")
     = validate_phone_number (u "98765" ++ u "43210").
Proof.
  split; [reflexivity|].
  apply (validate_ignores_separators (u "98765") (u "43210") 45%N).
  reflexivity.
Defined.

(** X2.  A number that validates has, once its separators are removed,
    between 1 and 17 characters, and at most 16 when it has no leading
    '+'; the first of them is '+' or a digit in 1-9. *)
Theorem validate_length_bounds :
  forall phone_number : ustr,
    validate_phone_number phone_number = true ->
    let cleaned := PhoneSpec.strip_separators phone_number in
    1 <= length cleaned <= 17
    /\ (Unicode.startswith (u "+") cleaned = false -> length cleaned <= 16)
    /\ exists c rest,
         cleaned = c :: rest
         /\ (c = 43%N \/ PhoneSpec.is_digit_1_9 c = true).
Proof.
  intros p H cleaned. apply validate_by_format in H. fold cleaned in H.
  destruct H as (sign & first & further & E & [-> | ->] & Hfirst & _ & Hlen);
    simpl in E; rewrite E; simpl.
  - split; [lia|]. split; [intros _; lia|]. exists first, further. auto.
  - split; [lia|]. split; [discriminate|].
    exists 43%N, (first :: further). auto.
Qed.

Lemma validate_length_bounds_witness :
  validate_phone_number (u "+91 (98765) 43210") = true
  /\ 1 <= length (PhoneSpec.strip_separators (u "+91 (98765) 43210")) <= 17.
Proof.
  split; [reflexivity|].
  exact (proj1 (validate_length_bounds (u "+91 (98765) 43210") eq_refl)).
Defined.

Lemma digit_1_9_is_digit (c : N) :
  PhoneSpec.is_digit_1_9 c = true -> PhoneSpec.is_digit c = true.
Proof.
  unfold PhoneSpec.is_digit_1_9. rewrite existsb_eqb_In. cbn.
  intros H. repeat (destruct H as [<-|H]; [reflexivity|]). contradiction.
Qed.

Lemma digit_not_separator (c : N) :
  PhoneSpec.is_digit c = true -> PhoneSpec.is_separator c = false.
Proof.
  intros Hd. destruct (PhoneSpec.is_separator c) eqn:Hs; [|reflexivity].
  exfalso. unfold PhoneSpec.is_separator in Hs.
  rewrite !Bool.orb_true_iff, existsb_eqb_In, !N.eqb_eq in Hs.
  destruct Hs as [[[Hs | ->] | ->] | ->]; try discriminate Hd.
  cbn in Hs. repeat (destruct Hs as [<-|Hs]; [discriminate Hd|]).
  contradiction.
Qed.

Lemma digits_separator_free (s : ustr) :
  PhoneSpec.all_chars PhoneSpec.is_digit s = true -> separator_free s.
Proof.
  unfold separator_free, PhoneSpec.all_chars.
  induction s as [|c s IH]; simpl; [reflexivity|].
  intros H. apply Bool.andb_true_iff in H as [Hc Hs].
  rewrite (digit_not_separator _ Hc), IH by exact Hs. reflexivity.
Qed.

Lemma country_code_shape_free (cc : ustr) :
  country_code_shape cc ->
  separator_free cc /\ Unicode.startswith (u "+") cc = true.
Proof.
  intros (d & ds & -> & Hd & Hds & _). split; [|reflexivity].
  apply (@separator_free_app (u "+") (d :: ds)); [reflexivity|].
  apply digits_separator_free. unfold PhoneSpec.all_chars. simpl.
  rewrite (digit_1_9_is_digit _ Hd). exact Hds.
Qed.

(** X3.  Formatting is idempotent for a country code that begins with
    '+' and holds no separator: formatting a formatted number again, with
    the same country code, changes nothing. *)
Theorem format_phone_number_idempotent :
  forall phone_number country_code : ustr,
    Unicode.startswith (u "+") country_code = true ->
    separator_free country_code ->
    format_phone_number (format_phone_number phone_number country_code)
      country_code
    = format_phone_number phone_number country_code.
Proof.
  intros p cc Hplus Hfree.
  assert (Hclean : separator_free (PhoneSpec.strip_separators p))
    by apply strip_no_separator.
  assert (Hfixed : forall r,
            separator_free r -> Unicode.startswith (u "+") r = true ->
            format_phone_number r cc = r).
  { intros r Hr Hs. rewrite format_by_strip. cbv zeta.
    rewrite (strip_separator_free Hr), Hs. reflexivity. }
  rewrite (format_by_strip p cc). cbv zeta.
  destruct (Unicode.startswith (u "+") (PhoneSpec.strip_separators p)) eqn:B1.
  { apply Hfixed; assumption. }
  destruct (Unicode.startswith (u "0") (PhoneSpec.strip_separators p)) eqn:B2.
  { apply Hfixed.
    - apply separator_free_app; [exact Hfree|].
      apply separator_free_drop1. exact Hclean.
    - apply startswith_plus_app. exact Hplus. }
  destruct (Unicode.startswith (u "91") (PhoneSpec.strip_separators p)
            && (length (PhoneSpec.strip_separators p) =? 12)) eqn:B3.
  { apply Hfixed; [|apply startswith_char_iff; simpl; eauto].
    apply (@separator_free_app (u "+")); [reflexivity | exact Hclean]. }
  destruct (length (PhoneSpec.strip_separators p) =? 10) eqn:B4.
  { apply Hfixed.
    - apply separator_free_app; assumption.
    - apply startswith_plus_app. exact Hplus. }
  rewrite format_by_strip. cbv zeta. rewrite B1, B2, B3, B4. reflexivity.
Qed.

Lemma format_phone_number_idempotent_witness :
  format_phone_number (format_phone_number (u "098765 43210") (u "+91"))
    (u "+91")
  = format_phone_number (u "098765 43210") (u "+91").
Proof.
  apply format_phone_number_idempotent; reflexivity.
Defined.

(** X4.  Formatting keeps a valid number valid: when
    [validate_phone_number] accepts the input and the country code is
    '+', a digit in 1-9 and at most four more digits, it accepts the
    formatted number too. *)
Theorem format_phone_number_keeps_valid :
  forall phone_number country_code : ustr,
    country_code_shape country_code ->
    validate_phone_number phone_number = true ->
    validate_phone_number (format_phone_number phone_number country_code) = true.
Proof.
  intros p cc Hcc Hvalid.
  destruct (country_code_shape_free Hcc) as [Hfree Hplus].
  assert (Hclean : separator_free (PhoneSpec.strip_separators p))
    by apply strip_no_separator.
  pose proof (proj1 (validate_by_format p) Hvalid) as Hfmt.
  rewrite format_by_strip. cbv zeta.
  destruct (Unicode.startswith (u "+") (PhoneSpec.strip_separators p)) eqn:B1.
  { apply validate_by_format. rewrite strip_idempotent. exact Hfmt. }
  destruct Hfmt as (sign & first & further & E & Hsign & Hfirst & Hdig & Hlen).
  assert (Esign : sign = []).
  { destruct Hsign as [-> | ->]; [reflexivity|].
    rewrite E in B1. discriminate B1. }
  subst sign. simpl in E.
  destruct (Unicode.startswith (u "0") (PhoneSpec.strip_separators p)) eqn:B2.
  { apply (startswith_char_iff 48%N) in B2 as [rest B2]. rewrite E in B2.
    injection B2 as -> _. discriminate Hfirst. }
  destruct (Unicode.startswith (u "91") (PhoneSpec.strip_separators p)
            && (length (PhoneSpec.strip_separators p) =? 12)) eqn:B3.
  { apply validate_by_format.
    rewrite (@strip_separator_free (u "+" ++ PhoneSpec.strip_separators p))
      by (apply (@separator_free_app (u "+")); [reflexivity | exact Hclean]).
    rewrite E. exists (u "+"), first, further. auto. }
  destruct (length (PhoneSpec.strip_separators p) =? 10) eqn:B4;
    [|exact Hvalid].
  apply Nat.eqb_eq in B4. apply validate_by_format.
  rewrite strip_separator_free by (apply separator_free_app; assumption).
  destruct Hcc as (d & ds & -> & Hd & Hds & Hn).
  exists (u "+"), d, (ds ++ PhoneSpec.strip_separators p)%list.
  split; [reflexivity|]. split; [auto|]. split; [exact Hd|].
  rewrite all_chars_app, length_app, B4, Hds, E.
  unfold PhoneSpec.all_chars in *. simpl.
  rewrite (digit_1_9_is_digit _ Hfirst), Hdig. split; [reflexivity | lia].
Qed.

Lemma format_phone_number_keeps_valid_witness :
  country_code_shape (u "+91")
  /\ validate_phone_number (u "98765 43210") = true
  /\ validate_phone_number (format_phone_number (u "98765 43210") (u "+91"))
     = true.
Proof.
  assert (Hcc : country_code_shape (u "+91")).
  { exists 57%N, (u "1"). repeat split; simpl; lia. }
  split; [exact Hcc|]. split; [reflexivity|].
  apply (format_phone_number_keeps_valid (u "98765 43210") Hcc). reflexivity.
Defined.

(* ********************************************************************* *)
(** * Further properties of the requests *)
(* ********************************************************************* *)

Lemma blocking_unreachable {pydantic : Validate.conversions} self i w :
  remote w (sent w ++ [request_of self i])%list = Unreachable ->
  fst (blocking self i w) = Raise ConnectionError.
Proof.
  intros H. rewrite blocking_run. unfold bind at 1.
  rewrite session_request_of, H. reflexivity.
Qed.

Lemma blocking_failure {pydantic : Validate.conversions} self i w e :
  remote w (sent w ++ [request_of self i])%list = Failure e ->
  fst (blocking self i w) = Raise (RequestException e).
Proof.
  intros H. rewrite blocking_run. unfold bind at 1.
  rewrite session_request_of, H. reflexivity.
Qed.



Example one_request_per_call_sample :
  fst (blocking (pydantic := Sample.pydantic) Sample.client
         (Delete_agent "agent-1") Sample.offline)
  = Raise ConnectionError
  /\ fst (blocking (pydantic := Sample.pydantic) Sample.client
            (Create_agent Sample.config) Sample.refusing)
     = Raise (RequestException InvalidJSONError).
Proof. split; reflexivity. Qed.

(** X6.  Every request of a client carries the bearer token and the JSON
    content type; it carries the tenant header exactly when the client
    was built with a tenant identifier that is not the empty string. *)
Theorem requests_carry_session_headers {pydantic : Validate.conversions} :
  forall (api_key base_url : string) (tenant_id : option string)
         (i : invocation) (w : World),
    let self := InvortoClient_init api_key base_url tenant_id in
    exists req,
      sent (snd (blocking self i w)) = (sent w ++ [req])%list
      /\ In ("Authorization", "Bearer " ++ api_key) (headers req)
      /\ In ("Content-Type", "application/json") (headers req)
      /\ (forall t, In ("x-tenant-id", t) (headers req)
                    <-> tenant_id = Some t /\ t <> "").
Proof.
  intros api_key base_url tenant_id i w self.
  exists (request_of self i). rewrite blocking_world, request_of_headers.
  split; [reflexivity|]. cbn [self InvortoClient_init InvortoClient.session_headers].
  split; [simpl; auto|]. split; [simpl; auto|].
  intros t. split.
  - intros [E|[E|H]]; try discriminate E.
    destruct tenant_id as [[|c t']|]; simpl in H; try contradiction.
    destruct H as [E|[]]. injection E as <-. split; [reflexivity | discriminate].
  - intros [-> Ht]. destruct t as [|c t]; [contradiction|].
    simpl. auto.
Qed.

(** X7.  Reads carry no body and writes carry no query: a GET or
    DELETE request has no JSON body, and a POST or PATCH request has a
    JSON body and no query parameters. *)
Theorem bodies_follow_methods {pydantic : Validate.conversions} :
  forall self (i : invocation) (w : World),
    exists req,
      sent (snd (blocking self i w)) = (sent w ++ [req])%list
      /\ (((method req = "GET" \/ method req = "DELETE")
           /\ json_kw req = None)
          \/ ((method req = "POST" \/ method req = "PATCH")
              /\ json_kw req <> None /\ params_kw req = None)).
Proof.
  intros self i w. exists (request_of self i). rewrite blocking_world.
  split; [reflexivity|]. unfold request_of.
  destruct i; cbn [WireSpec.endpoint fst snd issue method json_kw params_kw];
    first [ left; split; [auto | reflexivity]
          | right; split; [auto | split; [discriminate | reflexivity]] ].
Qed.

(** X8.  The body of [update_call_status] always holds the status
    under "status" and holds no key but "status" and "metadata"; it holds
    "metadata" exactly when the metadata given is a mapping that is not
    empty, and then holds that mapping: an empty one is never sent. *)
Theorem update_call_status_body {pydantic : Validate.conversions} :
  forall self (call_id status : string) (metadata : option dict) (w : World),
    exists body,
      sent (snd (update_call_status self call_id status metadata w))
      = (sent w
         ++ [issue self "PATCH" ("/v1/calls/" ++ call_id ++ "/status")
               (Some body) None])%list
      /\ Dict.get "status" body = Some (JStr status)
      /\ (forall v, Dict.get "metadata" body = Some v
                    <-> exists m, metadata = Some m /\ m <> [] /\ v = JDict m)
      /\ (forall k, In k (Dict.keys body) -> k = "status" \/ k = "metadata").
Proof.
  intros self call_id status metadata w. unfold update_call_status.
  rewrite bind_world; [|intros; apply construct_world].
  rewrite make_request_world. eexists. split; [reflexivity|].
  destruct metadata as [[|kv m]|]; simpl.
  - split; [reflexivity|]. split; [|intros k Hk; repeat (destruct Hk as [<-|Hk]; auto); contradiction]. intros v. split; [discriminate|].
    intros (m & E & Hm & _). injection E as <-. contradiction.
  - split; [reflexivity|]. split; [|intros k Hk; repeat (destruct Hk as [<-|Hk]; auto); contradiction]. intros v. split.
    + intros E. injection E as <-. exists (kv :: m).
      repeat split. discriminate.
    + intros (m' & E & _ & ->). injection E as <-. reflexivity.
  - split; [reflexivity|]. split; [|intros k Hk; repeat (destruct Hk as [<-|Hk]; auto); contradiction]. intros v. split; [discriminate|].
    intros (m & E & _). discriminate E.
Qed.

(* ********************************************************************* *)
(** * Further properties of the responses *)
(* ********************************************************************* *)






(** X10.  An answer that passes the status check but whose body is not
    JSON: [get_metrics] returns its text as it is, and every other
    operation raises the JSON decoding error. *)
Theorem body_that_is_not_json {pydantic : Validate.conversions} :
  forall self (i : invocation) (w : World) (r : Response),
    remote w (sent (snd (blocking self i w))) = Reply r ->
    ~ error_status (status_code r) ->
    (i = Get_metrics -> fst (blocking self i w) = Ok (VText (text r)))
    /\ (i <> Get_metrics -> json_ r = None ->
        fst (blocking self i w) = Raise JSONDecodeError).
Proof.
  intros self i w r H Hok. rewrite blocking_world in H. cbn [after sent] in H.
  rewrite (blocking_answered _ _ _ H).
  destruct ((400 <=? status_code r) && (status_code r <? 600))%Z eqn:E;
    [apply error_status_test in E; contradiction|].
  split.
  - intros ->. reflexivity.
  - intros Hi Hjson.
    destruct i; try (exfalso; apply Hi; reflexivity); cbn [handle];
      unfold returning, bind, response_json; rewrite Hjson; reflexivity.
Qed.

Lemma body_that_is_not_json_witness :
  fst (blocking (pydantic := Sample.pydantic) Sample.client Get_metrics
         (Sample.answering
            {| status_code := 200; text := "up 1"; json_ := None |}))
  = Ok (VText "up 1")
  /\ fst (blocking (pydantic := Sample.pydantic) Sample.client Health_check
            (Sample.answering
               {| status_code := 200; text := "up 1"; json_ := None |}))
     = Raise JSONDecodeError.
Proof.
  assert (H200 : ~ error_status 200) by (unfold error_status; lia).
  split.
  - refine (proj1 (@body_that_is_not_json Sample.pydantic Sample.client Get_metrics
                     (Sample.answering
                        {| status_code := 200; text := "up 1"; json_ := None |})
                     {| status_code := 200; text := "up 1"; json_ := None |}
                     eq_refl H200) eq_refl).
  - refine (proj2 (@body_that_is_not_json Sample.pydantic Sample.client Health_check
                     (Sample.answering
                        {| status_code := 200; text := "up 1"; json_ := None |})
                     {| status_code := 200; text := "up 1"; json_ := None |}
                     eq_refl H200) _ eq_refl).
    discriminate.
Defined.

Lemma handle_accepts {pydantic : Validate.conversions} i r w schema d v :
  entity_schema i = Some schema ->
  json_ r = Some (JDict d) ->
  schema d = Validate.Valid v ->
  fst (handle i r w) = Ok v.
Proof.
  intros Hs Hj Hd.
  destruct i; cbn [entity_schema] in Hs; try discriminate Hs;
    injection Hs as <-; cbn [handle];
    unfold bind, returning, response_json, construct, bind; rewrite Hj;
    cbn [ret fst]; cbv beta in Hd;
    match type of Hd with
    | match ?x with _ => _ end = _ => destruct x as [a|e]
    end; try discriminate Hd; injection Hd as <-; reflexivity.
Qed.

(** X11.  An entity in hand was validated, and only then: an operation
    that decodes one entity returns it exactly when the service answered
    its request with a status outside 400-599 and a JSON mapping that the
    schema accepts, and the entity returned is the one the schema makes of
    that mapping. *)
Theorem entity_returned_iff_valid_answer {pydantic : Validate.conversions} :
  forall self (i : invocation) (w : World) (v : value) schema,
    entity_schema i = Some schema ->
    (fst (blocking self i w) = Ok v
     <-> exists r d,
           remote w (sent w ++ [request_of self i])%list = Reply r
           /\ ~ error_status (status_code r)
           /\ json_ r = Some (JDict d)
           /\ schema d = Validate.Valid v).
Proof.
  intros self i w v schema Hs. split.
  - intros Hv.
    destruct (remote w (sent w ++ [request_of self i])%list) as [r| |e] eqn:Hr;
      [| rewrite (blocking_unreachable _ _ _ Hr) in Hv; discriminate Hv
       | rewrite (blocking_failure _ _ _ Hr) in Hv; discriminate Hv].
    rewrite (blocking_answered _ _ _ Hr) in Hv.
    destruct ((400 <=? status_code r) && (status_code r <? 600))%Z eqn:E;
      [discriminate Hv|].
    assert (Hok : ~ error_status (status_code r)).
    { intros Hx. apply error_status_test in Hx. congruence. }
    exists r.
    destruct i; cbn [entity_schema] in Hs; try discriminate Hs;
      injection Hs as <-; cbn [handle] in Hv;
      unfold bind, returning, response_json, construct, bind in Hv;
      destruct (json_ r) as [[| | | | | |d]|]; cbn [ret raise fst] in Hv;
      try discriminate Hv;
      exists d; (split; [reflexivity|]); (split; [exact Hok|]);
      (split; [reflexivity|]); cbv beta;
      match type of Hv with
      | context [match ?x with _ => _ end] => destruct x as [a|e]
      end; cbn [ret raise fst] in Hv; try discriminate Hv;
      injection Hv as <-; reflexivity.
  - intros (r & d & Hr & Hok & Hj & Hd).
    rewrite (blocking_answered _ _ _ Hr).
    destruct ((400 <=? status_code r) && (status_code r <? 600))%Z eqn:E;
      [apply error_status_test in E; contradiction|].
    eapply handle_accepts; eassumption.
Qed.

Lemma entity_returned_iff_valid_answer_witness :
  exists r d,
    remote (Sample.answering Sample.not_modified)
      (sent (Sample.answering Sample.not_modified)
       ++ [request_of Sample.client (Get_agent "agent-1")])%list = Reply r
    /\ ~ error_status (status_code r)
    /\ json_ r = Some (JDict d)
    /\ exists a, validate_Agent (pydantic := Sample.pydantic) d = Validate.Valid a.
Proof.
  destruct (proj1 (@entity_returned_iff_valid_answer Sample.pydantic Sample.client
                     (Get_agent "agent-1")
                     (Sample.answering Sample.not_modified) _ _ eq_refl)
              eq_refl)
    as (r & d & Hr & Hok & Hj & Hv).
  exists r, d. repeat split; try assumption.
  destruct (validate_Agent d) as [a|e]; [eauto | discriminate Hv].
Defined.

(** X18.  [delete_agent], [create_call] and [health_check] hand back the
    JSON value of the answer as it is, whatever its kind: it is not
    checked against any schema. *)
Theorem raw_answers_are_not_validated {pydantic : Validate.conversions} :
  forall self (i : invocation) (w : World) (r : Response) (v : json),
    (exists agent_id, i = Delete_agent agent_id)
    \/ (exists options, i = Create_call options) \/ i = Health_check ->
    remote w (sent (snd (blocking self i w))) = Reply r ->
    ~ error_status (status_code r) ->
    json_ r = Some v ->
    fst (blocking self i w) = Ok (VJson v).
Proof.
  intros self i w r v Hi H Hok Hj.
  rewrite blocking_world in H. cbn [after sent] in H.
  rewrite (blocking_answered _ _ _ H).
  destruct ((400 <=? status_code r) && (status_code r <? 600))%Z eqn:E;
    [apply error_status_test in E; contradiction|].
  destruct Hi as [[a ->] | [[o ->] | ->]]; cbn [handle];
    unfold returning, bind, response_json; rewrite Hj; reflexivity.
Qed.

Lemma raw_answers_are_not_validated_witness :
  fst (blocking (pydantic := Sample.pydantic) Sample.client
         (Create_call Sample.call_options)
         (Sample.answering Sample.array_body)) = Ok (VJson (JList [])).
Proof.
  apply (@raw_answers_are_not_validated Sample.pydantic Sample.client
           (Create_call Sample.call_options)
           (Sample.answering Sample.array_body) Sample.array_body (JList [])).
  - right. left. eexists. reflexivity.
  - reflexivity.
  - unfold error_status. simpl. lia.
  - reflexivity.
Defined.

(** X12.  Status strings decode to the member they name and to nothing
    else: validating the value of a member gives that member back, the
    values of distinct members differ, and a string that is the value of
    no member is rejected. *)
Theorem status_values_round_trip :
  (forall s : CallStatus,
     Validate.enum [CREATED; RINGING; ANSWERED; ACTIVE_CALL; COMPLETED; FAILED]
       CallStatus_value (JStr (CallStatus_value s)) = Validate.Valid s)
  /\ (forall s : AgentStatus,
        Validate.enum [ACTIVE; INACTIVE; DRAFT] AgentStatus_value
          (JStr (AgentStatus_value s)) = Validate.Valid s)
  /\ (forall (str : string) (s : CallStatus),
        Validate.enum [CREATED; RINGING; ANSWERED; ACTIVE_CALL; COMPLETED; FAILED]
          CallStatus_value (JStr str) = Validate.Valid s
        <-> CallStatus_value s = str)
  /\ (forall (str : string) (s : AgentStatus),
        Validate.enum [ACTIVE; INACTIVE; DRAFT] AgentStatus_value (JStr str)
        = Validate.Valid s
        <-> AgentStatus_value s = str).
Proof.
  assert (H1 : forall s : CallStatus,
     Validate.enum [CREATED; RINGING; ANSWERED; ACTIVE_CALL; COMPLETED; FAILED]
       CallStatus_value (JStr (CallStatus_value s)) = Validate.Valid s)
    by (intros []; reflexivity).
  assert (H2 : forall s : AgentStatus,
        Validate.enum [ACTIVE; INACTIVE; DRAFT] AgentStatus_value
          (JStr (AgentStatus_value s)) = Validate.Valid s)
    by (intros []; reflexivity).
  split; [exact H1|]. split; [exact H2|]. split.
  - intros str s. split; [|intros <-; apply H1].
    unfold Validate.enum. intros H.
    destruct (find _ _) as [m|] eqn:Hfind; [|discriminate H].
    injection H as ->. apply find_some in Hfind as [_ E].
    apply String.eqb_eq in E. exact E.
  - intros str s. split; [|intros <-; apply H2].
    unfold Validate.enum. intros H.
    destruct (find _ _) as [m|] eqn:Hfind; [|discriminate H].
    injection H as ->. apply find_some in Hfind as [_ E].
    apply String.eqb_eq in E. exact E.
Qed.

(* ********************************************************************* *)
(** * Further properties of the encoders *)
(* ********************************************************************* *)

Lemma get_set_same k v (d : dict) : Dict.get k (Dict.set k v d) = Some v.
Proof.
  induction d as [|[k' v'] d IH]; simpl.
  - rewrite String.eqb_refl. reflexivity.
  - destruct (String.eqb k k') eqn:E; simpl; rewrite E; [reflexivity | exact IH].
Qed.

Lemma get_set_other k k' v (d : dict) :
  k <> k' -> Dict.get k' (Dict.set k v d) = Dict.get k' d.
Proof.
  intros Hne. induction d as [|[k0 v0] d IH]; simpl.
  - destruct (String.eqb_spec k' k) as [->|_]; [contradiction | reflexivity].
  - destruct (String.eqb_spec k k0) as [<-|_]; simpl.
    + destruct (String.eqb_spec k' k) as [->|_]; [contradiction | reflexivity].
    + rewrite IH. reflexivity.
Qed.

Lemma get_remove_same k (d : dict) : Dict.get k (Dict.remove k d) = None.
Proof.
  induction d as [|[k' v'] d IH]; simpl; [reflexivity|].
  destruct (String.eqb k k') eqn:E; simpl; [exact IH|]. rewrite E. exact IH.
Qed.

Lemma get_remove_other k k' (d : dict) :
  k <> k' -> Dict.get k' (Dict.remove k d) = Dict.get k' d.
Proof.
  intros Hne. induction d as [|[k0 v0] d IH]; simpl; [reflexivity|].
  destruct (String.eqb_spec k k0) as [<-|_]; simpl.
  - rewrite IH. destruct (String.eqb_spec k' k) as [->|_];
      [contradiction | reflexivity].
  - rewrite IH. reflexivity.
Qed.

Lemma CallListOptions_dump_from (o : CallListOptions.t) :
  Dict.get "from_" (CallListOptions_model_dump o)
  = option_map JStr (CallListOptions.from_ o)
  /\ Dict.get "from" (CallListOptions_model_dump o) = None.
Proof.
  destruct o as [[pg|] [lm|] [se|] [st|] [sb|] [so|] [ag|] [fr|] [to|]];
    split; reflexivity.
Qed.

(** X13.  [list_calls] renames and does nothing else: its query holds
    the value of the [from_] field under "from", holds nothing under
    "from_", and holds under every other key what the encoded options
    hold. *)
Theorem list_calls_renames_only_from :
  forall (options : option CallListOptions.t),
    let opts := match options with
                | None => CallListOptions.default
                | Some o => o
                end in
    let query := list_calls_params options in
    Dict.get "from" query = option_map JStr (CallListOptions.from_ opts)
    /\ Dict.get "from_" query = None
    /\ forall k, k <> "from" -> k <> "from_" ->
                 Dict.get k query = Dict.get k (CallListOptions_model_dump opts).
Proof.
  intros options opts query. unfold query, list_calls_params. fold opts.
  destruct (CallListOptions_dump_from opts) as [Hfrom_ Hfrom].
  destruct (Dict.get "from_" (CallListOptions_model_dump opts)) as [v|] eqn:E.
  - split; [rewrite get_set_same; exact Hfrom_|]. split.
    + rewrite get_set_other by discriminate. apply get_remove_same.
    + intros k H1 H2. rewrite get_set_other by congruence.
      apply get_remove_other. congruence.
  - split; [rewrite Hfrom; exact Hfrom_|]. split; [exact E|]. reflexivity.
Qed.

Lemma list_calls_renames_only_from_witness :
  Dict.get "from" (list_calls_params (Some Sample.calls_from))
  = Some (JStr "+911234567890")
  /\ Dict.get "from_" (list_calls_params (Some Sample.calls_from)) = None
  /\ Dict.get "limit" (list_calls_params (Some Sample.calls_from))
     = Some (JInt 50)
  /\ Dict.get "limit" (list_calls_params None) = Some (JInt 50).
Proof.
  destruct (list_calls_renames_only_from (Some Sample.calls_from))
    as (Hfrom & Hfrom_ & Hother).
  destruct (list_calls_renames_only_from None) as (_ & _ & Hdefault).
  split; [exact Hfrom|]. split; [exact Hfrom_|]. split.
  - rewrite (Hother "limit"); [reflexivity | discriminate | discriminate].
  - rewrite (Hdefault "limit"); [reflexivity | discriminate | discriminate].
Defined.

Lemma distinct_keys_sound (keys : list string) :
  distinct_keys keys = true -> NoDup keys.
Proof.
  induction keys as [|k rest IH]; simpl; intros H; [constructor|].
  apply Bool.andb_true_iff in H as [Hk Hrest]. constructor; [|auto].
  intros Hin. apply Bool.negb_true_iff in Hk.
  assert (existsb (String.eqb k) rest = true); [|congruence].
  apply existsb_exists. exists k. split; [exact Hin | apply String.eqb_refl].
Qed.

(** X14.  The mappings the client sends are well-formed dictionaries: no
    key occurs twice in the body of [create_agent] or [create_call] or in
    the query of [list_agents] or [list_calls]. *)
Theorem encoded_keys_are_distinct :
  (forall c : AgentConfig.t, NoDup (Dict.keys (AgentConfig_model_dump c)))
  /\ (forall o : CallOptions.t, NoDup (Dict.keys (create_call_data o)))
  /\ (forall o : ListOptions.t, NoDup (Dict.keys (ListOptions_model_dump o)))
  /\ (forall o : option CallListOptions.t,
        NoDup (Dict.keys (list_calls_params o))).
Proof.
  split; [|split; [|split]].
  - intros c. apply distinct_keys_sound.
    destruct c as [n p [v|] [l|] [t|] [m|] [mt|] [sp|] [tl|] [md|]]; reflexivity.
  - intros o. apply distinct_keys_sound.
    destruct o as [a t [[|ch f]|] d [m|] [r|] [tr|]]; reflexivity.
  - intros o. apply distinct_keys_sound.
    destruct o as [[pg|] [lm|] [se|] [st|] [sb|] [so|]]; reflexivity.
  - intros o. apply distinct_keys_sound.
    destruct o as [[[pg|] [lm|] [se|] [st|] [sb|] [so|] [ag|] [fr|] [to|]]|];
      reflexivity.
Qed.

Lemma AgentConfig_of_dump_dump (c : AgentConfig.t) :
  AgentConfig_of_dump (AgentConfig_model_dump c) = Validate.Valid c.
Proof.
  destruct c as [n p [v|] [l|] [t|] [m|] [mt|] [sp|] [tl|] [md|]];
    unfold AgentConfig_of_dump, Validate.required, Validate.optional,
      Validate.list_of, JDicts;
    cbn; rewrite ?each_dicts; reflexivity.
Qed.

Lemma CallOptions_of_body_data (o : CallOptions.t) :
  CallOptions_of_body (create_call_data o) = Validate.Valid o.
Proof.
  destruct o as [a t [[|ch f]|] [] [m|] [r|] [tr|]]; reflexivity.
Qed.

(** X15.  The encoders lose nothing: two configurations that
    [create_agent] sends as the same body are the same configuration, and
    two call options that [create_call] sends as the same body are the
    same options. *)
Theorem encoders_are_injective :
  (forall c1 c2 : AgentConfig.t,
     AgentConfig_model_dump c1 = AgentConfig_model_dump c2 -> c1 = c2)
  /\ (forall o1 o2 : CallOptions.t,
        create_call_data o1 = create_call_data o2 -> o1 = o2).
Proof.
  split.
  - intros c1 c2 E.
    pose proof (AgentConfig_of_dump_dump c1) as H1.
    rewrite E, AgentConfig_of_dump_dump in H1. injection H1 as ->. reflexivity.
  - intros o1 o2 E.
    pose proof (CallOptions_of_body_data o1) as H1.
    rewrite E, CallOptions_of_body_data in H1. injection H1 as ->. reflexivity.
Qed.

Lemma encoders_are_injective_witness :
  AgentConfig_model_dump Sample.config = AgentConfig_model_dump Sample.config
  /\ Sample.config = Sample.config.
Proof.
  split; [reflexivity|].
  apply (proj1 encoders_are_injective Sample.config Sample.config). reflexivity.
Defined.

(* ********************************************************************* *)
(** * Further properties of the batch helpers and the constructor *)
(* ********************************************************************* *)

Lemma for_append_acc {A B : Type} (f : A -> M B) (items : list A) :
  forall (acc : list B) (w : World),
    for_append f items acc w
    = match for_append f items [] w with
      | (Ok results, w') => (Ok (acc ++ results)%list, w')
      | (Raise e, w') => (Raise e, w')
      end.
Proof.
  induction items as [|x rest IH]; intros acc w; simpl.
  - rewrite app_nil_r. reflexivity.
  - unfold bind. destruct (f x w) as [[b|e] w1]; [|reflexivity].
    rewrite (IH (acc ++ [b])%list w1), (IH [b] w1).
    destruct (for_append f rest [] w1) as [[results|e] w2]; [|reflexivity].
    rewrite <- app_assoc. reflexivity.
Qed.

Lemma for_append_app {A B : Type} (f : A -> M B) (xs ys : list A) (w : World) :
  for_append f (xs ++ ys) [] w
  = then_batch (for_append f xs []) (for_append f ys []) w.
Proof.
  unfold then_batch. revert w.
  induction xs as [|x xs IH]; intros w; simpl.
  - destruct (for_append f ys [] w) as [[r|e] w']; reflexivity.
  - unfold bind. destruct (f x w) as [[b|e] w1]; [|reflexivity].
    rewrite (for_append_acc f (xs ++ ys) [b] w1), (for_append_acc f xs [b] w1).
    rewrite IH.
    destruct (for_append f xs [] w1) as [[r1|e] w2]; [|reflexivity].
    destruct (for_append f ys [] w2) as [[r2|e] w3]; [|reflexivity].
    rewrite app_assoc. reflexivity.
Qed.

(** X16.  Batches compose: creating the items of two lists in one batch
    is creating the first list and then, if that succeeded, the second, in
    the world the first left; a batch of no item issues nothing and
    returns the empty list, and a batch of one item is that one
    creation. *)
Theorem batches_compose {pydantic : Validate.conversions} :
  forall self,
    (forall (xs ys : list AgentConfig.t) (w : World),
       create_multiple_agents self (xs ++ ys) w
       = then_batch (create_multiple_agents self xs)
           (create_multiple_agents self ys) w)
    /\ (forall (xs ys : list CallOptions.t) (w : World),
          create_multiple_calls self (xs ++ ys) w
          = then_batch (create_multiple_calls self xs)
              (create_multiple_calls self ys) w)
    /\ (forall w, create_multiple_agents self [] w = (Ok [], w))
    /\ (forall w, create_multiple_calls self [] w = (Ok [], w))
    /\ (forall (c : AgentConfig.t) (w : World),
          create_multiple_agents self [c] w
          = match create_agent self c w with
            | (Ok a, w') => (Ok [a], w')
            | (Raise e, w') => (Raise e, w')
            end).
Proof.
  intros self. split; [|split; [|split; [|split]]].
  - intros xs ys w. apply for_append_app.
  - intros xs ys w. apply for_append_app.
  - reflexivity.
  - reflexivity.
  - intros c w. unfold create_multiple_agents. simpl. unfold bind.
    destruct (create_agent self c w) as [[a|e] w']; reflexivity.
Qed.

Lemma rstrip_fixed (s : string) :
  PyStr.ends_with "/" s = false -> PyStr.rstrip "/" s = s.
Proof.
  induction s as [|c s IH]; [reflexivity|].
  cbn [PyStr.rstrip]. destruct s as [|d s].
  - simpl. intros E. rewrite E. reflexivity.
  - intros H. change (PyStr.ends_with "/" (String d s) = false) in H.
    rewrite (IH H). reflexivity.
Qed.

(** X17.  Stripping is done once and for all: a base URL that does not
    end in '/' is stored as given, and building a client from the base
    URL another client stores gives the same client. *)
Theorem base_url_is_stable :
  forall (api_key base_url : string) (tenant_id : option string),
    (PyStr.ends_with "/" base_url = false ->
     InvortoClient.base_url (InvortoClient_init api_key base_url tenant_id)
     = base_url)
    /\ InvortoClient_init api_key
         (InvortoClient.base_url (InvortoClient_init api_key base_url tenant_id))
         tenant_id
       = InvortoClient_init api_key base_url tenant_id.
Proof.
  intros api_key base_url tenant_id. split.
  - intros H. apply rstrip_fixed. exact H.
  - unfold InvortoClient_init. cbn [InvortoClient.base_url].
    rewrite (rstrip_fixed _ (rstrip_no_trailing_slash base_url)). reflexivity.
Qed.

Lemma base_url_is_stable_witness :
  InvortoClient.base_url (InvortoClient_init "secret" default_base_url None)
  = default_base_url.
Proof.
  apply (proj1 (base_url_is_stable "secret" default_base_url None)).
  reflexivity.
Defined.

(* ********************************************************************* *)
(** * What validation never accepts *)
(* ********************************************************************* *)

Lemma all_chars_weaken (p q : N -> bool) (s : ustr) :
  (forall c, p c = true -> q c = true) ->
  PhoneSpec.all_chars p s = true -> PhoneSpec.all_chars q s = true.
Proof.
  unfold PhoneSpec.all_chars.
  intros Hpq. induction s as [|c s IH]; simpl; [reflexivity|].
  intros H. apply Bool.andb_true_iff in H as [Hc Hs].
  rewrite (Hpq _ Hc), IH by exact Hs. reflexivity.
Qed.

Lemma strip_chars (p : N -> bool) (s : ustr) :
  PhoneSpec.all_chars p (PhoneSpec.strip_separators s) = true ->
  PhoneSpec.all_chars (fun c => PhoneSpec.is_separator c || p c) s = true.
Proof.
  unfold PhoneSpec.all_chars.
  induction s as [|c s IH]; simpl; [reflexivity|].
  destruct (PhoneSpec.is_separator c); simpl; [exact IH|].
  intros H. apply Bool.andb_true_iff in H as [Hc Hs].
  rewrite Hc, IH by exact Hs. reflexivity.
Qed.

(** X19.  A number that validates is made of whitespace, hyphens,
    parentheses, decimal digits (of any script) and '+' only: an input
    with any other character is rejected. *)
Theorem validate_accepts_only_phone_characters :
  forall phone_number : ustr,
    validate_phone_number phone_number = true ->
    PhoneSpec.all_chars
      (fun c => PhoneSpec.is_separator c
                || (PhoneSpec.is_digit c || (c =? 43)%N))
      phone_number = true.
Proof.
  intros p H. apply strip_chars. apply validate_by_format in H.
  destruct H as (sign & first & further & -> & Hsign & Hfirst & Hdig & _).
  rewrite all_chars_app.
  change (PhoneSpec.all_chars ?p (first :: further))
    with (p first && PhoneSpec.all_chars p further).
  cbv beta. rewrite (digit_1_9_is_digit _ Hfirst). simpl.
  rewrite (all_chars_weaken PhoneSpec.is_digit
             (fun c => PhoneSpec.is_digit c || (c =? 43)%N) further);
    [| intros c Hc; rewrite Hc; reflexivity | exact Hdig].
  destruct Hsign as [-> | ->]; reflexivity.
Qed.

Lemma validate_accepts_only_phone_characters_witness :
  validate_phone_number (u "+91 (98765) 43210") = true
  /\ PhoneSpec.all_chars
       (fun c => PhoneSpec.is_separator c
                 || (PhoneSpec.is_digit c || (c =? 43)%N))
       (u "+91 (98765) 43210") = true.
Proof.
  split; [reflexivity|].
  apply (validate_accepts_only_phone_characters (u "+91 (98765) 43210")).
  reflexivity.
Defined.

